(** * port_list_tool: compose-file discovery, port extraction, reconciliation
      and the interactive dispatcher

    A shallow embedding of [port_list_tool.py].  Python strings are modelled
    by [string] (characters restricted to code points 0..255), Python lists by
    [list], dictionaries by association lists in insertion order, exceptions by
    the [result] type, and the file system, the regular-expression engine, the
    YAML loader and the [docker-compose] command by section variables. *)

From Stdlib Require Import String Ascii List ZArith Lia Bool Arith.
From Stdlib Require Import DecimalString DecimalNat Decimal.
Import ListNotations.
Open Scope string_scope.

(** ** Exceptions *)

Inductive exn : Type :=
| ReError            (* re.error: a pattern that does not compile *)
| OSError            (* open / subprocess could not be performed *)
| YAMLError          (* yaml.safe_load rejected the document *)
| AttributeError
| TypeError
| KeyError
| ValueError
| IndexError
| EOFError.

Inductive result (A : Type) : Type :=
| Ok (a : A)
| Raise (e : exn).
Arguments Ok {A} a.
Arguments Raise {A} e.

Definition bind {A B : Type} (r : result A) (k : A -> result B) : result B :=
  match r with
  | Ok a => k a
  | Raise e => Raise e
  end.

Notation "x <- r ;; k" := (bind r (fun x => k))
  (at level 61, r at next level, right associativity).

(** ** Python string primitives *)

(** [x in xs] for a list of strings. *)
Fixpoint str_in (x : string) (xs : list string) : bool :=
  match xs with
  | [] => false
  | y :: ys => if String.eqb x y then true else str_in x ys
  end.

(** [s[n:]] *)
Fixpoint slice_from (n : nat) (s : string) : string :=
  match n, s with
  | O, _ => s
  | S n', String _ r => slice_from n' r
  | S _, EmptyString => EmptyString
  end.

(** [s.count(c)] for a one-character needle. *)
Fixpoint count_char (c : ascii) (s : string) : nat :=
  match s with
  | EmptyString => 0
  | String a r => (if Ascii.eqb a c then 1 else 0) + count_char c r
  end.

(** ** os.path (POSIX flavour) *)

Module OsPath.

Definition sep : ascii := "/"%char.

Definition starts_with_sep (s : string) : bool :=
  match s with
  | String c _ => Ascii.eqb c sep
  | EmptyString => false
  end.

Fixpoint ends_with_sep (s : string) : bool :=
  match s with
  | EmptyString => false
  | String c EmptyString => Ascii.eqb c sep
  | String _ r => ends_with_sep r
  end.

(** [posixpath.join(a, b)]: an absolute [b] replaces [a]; otherwise a
    separator is inserted unless [a] is empty or already ends with one. *)
Definition join (a b : string) : string :=
  if starts_with_sep b then b
  else if (String.eqb a "" || ends_with_sep a)%bool then a ++ b
  else a ++ String sep b.

End OsPath.

(** ** The directory tree seen by [os.walk]

    [dlisted] is [false] for an entry that [os.walk] names in [dirnames] but
    never yields: a symbolic link to a directory ([followlinks] is off) or a
    directory whose [scandir] fails ([onerror] is [None], so the error is
    dropped and the walk goes on). *)

#[local] Unset Elimination Schemes.
Inductive dir : Type :=
| Dir (dname : string) (dlisted : bool) (dfiles : list string) (dsubs : list dir).
#[local] Set Elimination Schemes.

Definition dname (d : dir) : string := let 'Dir n _ _ _ := d in n.
Definition dlisted (d : dir) : bool := let 'Dir _ l _ _ := d in l.
Definition dfiles (d : dir) : list string := let 'Dir _ _ f _ := d in f.
Definition dsubs (d : dir) : list dir := let 'Dir _ _ _ s := d in s.

(** [os.walk(top)], top-down, as a fold.  The loop body receives
    [(dirpath, dirnames, filenames)] and the loop state; besides the new state
    it says whether it left [dirnames] alone ([true]) or emptied it with
    [dirnames[:] = []] ([false]), the only two things the program does to it. *)
Fixpoint os_walk {A : Type}
    (body : string -> list string -> list string -> A -> result (A * bool))
    (top : string) (d : dir) (acc : A) {struct d} : result A :=
  match d with
  | Dir _ listed filenames subs =>
      if listed then
        match body top (map dname subs) filenames acc with
        | Raise e => Raise e
        | Ok (acc1, keep) =>
            if keep then
              (fix each (l : list dir) (a : A) {struct l} : result A :=
                 match l with
                 | [] => Ok a
                 | s :: r =>
                     match os_walk body (OsPath.join top (dname s)) s a with
                     | Raise e => Raise e
                     | Ok a' => each r a'
                     end
                 end) subs acc1
            else Ok acc1
        end
      else Ok acc
  end.

(** ** PathScanner: [find_docker_compose_files] *)

Definition compose_name : string := "docker-compose.yml".

(** [dirpath[len(root_path):].count(os.sep)] *)
Definition depth (root_path dirpath : string) : Z :=
  Z.of_nat (count_char OsPath.sep (slice_from (String.length root_path) dirpath)).

Section PathScanner.

(** [re.search(pattern, s) is not None]; [Raise ReError] when the pattern
    does not compile. *)
Variable re_search : string -> string -> result bool.

(** [any(re.search(p, dirpath) for p in exclude_patterns)]: lazy, stops at
    the first match. *)
Fixpoint any_search (patterns : list string) (dirpath : string) : result bool :=
  match patterns with
  | [] => Ok false
  | p :: ps =>
      match re_search p dirpath with
      | Raise e => Raise e
      | Ok true => Ok true
      | Ok false => any_search ps dirpath
      end
  end.

(** [exclude_patterns or []] *)
Definition or_empty (o : option (list string)) : list string :=
  match o with
  | Some l => l
  | None => []
  end.

(** One iteration of the [for ... in os.walk(root_path)] loop. *)
Definition visit (root_path : string) (max_depth : Z) (patterns : list string)
    (dirpath : string) (dirnames filenames : list string)
    (docker_compose_files : list string) : result (list string * bool) :=
  if (depth root_path dirpath <? max_depth)%Z then
    matched <- any_search patterns dirpath ;;
    if matched then Ok (docker_compose_files, false)
    else if str_in compose_name filenames
         then Ok ((docker_compose_files ++ [OsPath.join dirpath compose_name])%list, true)
         else Ok (docker_compose_files, true)
  else Ok (docker_compose_files, false).

Definition find_docker_compose_files (root_path : string) (max_depth : Z)
    (exclude_patterns : option (list string)) (fs : dir) : result (list string) :=
  os_walk (visit root_path max_depth (or_empty exclude_patterns)) root_path fs [].

End PathScanner.

(** ** Positions inside the tree

    [descend d ns e]: following the directory entries named [ns] from [d]
    leads to [e]; [path_of top ns] is the [dirpath] that [os.walk] builds for
    it, one [os.path.join] per level. *)

Inductive descend : dir -> list string -> dir -> Prop :=
| descend_here : forall d, descend d [] d
| descend_down : forall d s ns e,
    In s (dsubs d) -> descend s ns e -> descend d (dname s :: ns) e.

Definition path_of (top : string) (ns : list string) : string :=
  fold_left OsPath.join ns top.

(** A directory entry name: not empty and free of the separator. *)
Definition entry_name (n : string) : bool :=
  negb (String.eqb n "") && Nat.eqb (count_char OsPath.sep n) 0.

(** Every entry below [d] has a proper name ([d]'s own name stands for the
    caller's [root_path] and is not constrained). *)
Fixpoint proper_tree (d : dir) : bool :=
  match d with
  | Dir _ _ filenames subs =>
      forallb entry_name filenames
      && forallb (fun s => entry_name (dname s) && proper_tree s) subs
  end.

(** ** Values produced by [yaml.safe_load]

    Mapping keys are strings, as in every compose document; a float is kept as
    its source text since the program never computes with one. *)

#[local] Unset Elimination Schemes.
Inductive pyval : Type :=
| PNone
| PBool (b : bool)
| PInt (z : Z)
| PFloat (repr : string)
| PStr (s : string)
| PList (l : list pyval)
| PDict (items : list (string * pyval)).
#[local] Set Elimination Schemes.

(** Dictionaries keep insertion order; assigning to a present key replaces the
    value where it stands. *)
Fixpoint dict_get {V : Type} (k : string) (d : list (string * V)) : option V :=
  match d with
  | [] => None
  | (k', v) :: r => if String.eqb k k' then Some v else dict_get k r
  end.

Fixpoint dict_set {V : Type} (k : string) (v : V) (d : list (string * V))
  : list (string * V) :=
  match d with
  | [] => [(k, v)]
  | (k', v') :: r =>
      if String.eqb k k' then (k, v) :: r else (k', v') :: dict_set k v r
  end.

Definition dict_keys {V : Type} (d : list (string * V)) : list string :=
  map fst d.

(** [l[i]] with Python's negative indices. *)
Definition py_getitem {A : Type} (l : list A) (i : Z) : result A :=
  let n := Z.of_nat (List.length l) in
  let j := if (i <? 0)%Z then (i + n)%Z else i in
  if ((j <? 0) || (n <=? j))%Z then Raise IndexError
  else match nth_error l (Z.to_nat j) with
       | Some x => Ok x
       | None => Raise IndexError
       end.

(** [s.split(c)] for a one-character separator. *)
Fixpoint split (c : ascii) (s : string) : list string :=
  match s with
  | EmptyString => [EmptyString]
  | String a r =>
      if Ascii.eqb a c then EmptyString :: split c r
      else match split c r with
           | [] => [String a EmptyString]
           | h :: t => String a h :: t
           end
  end.

(** [needle in s] for strings. *)
Fixpoint is_substring (needle s : string) : bool :=
  if String.prefix needle s then true
  else match s with
       | EmptyString => false
       | String _ r => is_substring needle r
       end.

Fixpoint chars (s : string) : list string :=
  match s with
  | EmptyString => []
  | String c r => String c EmptyString :: chars r
  end.

Fixpoint map_result {A B : Type} (f : A -> result B) (l : list A) : result (list B) :=
  match l with
  | [] => Ok []
  | x :: r =>
      y <- f x ;;
      ys <- map_result f r ;;
      Ok (y :: ys)
  end.

(** ** ComposeSpecReader: [get_ports_from_docker_compose] *)

Inductive PortIndex : Type := HOST | CONTAINER.

Definition value (i : PortIndex) : Z :=
  match i with
  | HOST => 0
  | CONTAINER => 1
  end.

(** [compose_data.get("services", {})] *)
Definition get_services (compose_data : pyval) : result pyval :=
  match compose_data with
  | PDict items =>
      match dict_get "services" items with
      | Some v => Ok v
      | None => Ok (PDict [])
      end
  | _ => Raise AttributeError
  end.

(** [services.items()] *)
Definition items (services : pyval) : result (list (string * pyval)) :=
  match services with
  | PDict l => Ok l
  | _ => Raise AttributeError
  end.

(** ["ports" in service_data] *)
Definition has_ports (service_data : pyval) : result bool :=
  match service_data with
  | PDict l => Ok (str_in "ports" (dict_keys l))
  | PList l =>
      Ok (existsb (fun v => match v with
                            | PStr s => String.eqb s "ports"
                            | _ => false
                            end) l)
  | PStr s => Ok (is_substring "ports" s)
  | _ => Raise TypeError
  end.

(** [service_data["ports"]] *)
Definition get_ports_field (service_data : pyval) : result pyval :=
  match service_data with
  | PDict l =>
      match dict_get "ports" l with
      | Some v => Ok v
      | None => Raise KeyError
      end
  | _ => Raise TypeError
  end.

(** The values a [for port in ...] sees. *)
Definition iterate (v : pyval) : result (list pyval) :=
  match v with
  | PList l => Ok l
  | PDict l => Ok (map PStr (dict_keys l))
  | PStr s => Ok (map PStr (chars s))
  | _ => Raise TypeError
  end.

(** [port.split(":")[PortIndex.HOST.value]] *)
Definition host_segment (port : pyval) : result string :=
  match port with
  | PStr s => py_getitem (split ":"%char s) (value HOST)
  | _ => Raise AttributeError
  end.

(** The body of [for service_name, service_data in services.items()]. *)
Definition service_step (service_name : string) (service_data : pyval)
    (file_ports : list (string * list string))
  : result (list (string * list string)) :=
  present <- has_ports service_data ;;
  if present then
    field <- get_ports_field service_data ;;
    entries <- iterate field ;;
    hosts <- map_result host_segment entries ;;
    Ok (dict_set service_name hosts file_ports)
  else Ok file_ports.

Fixpoint services_loop (l : list (string * pyval))
    (file_ports : list (string * list string))
  : result (list (string * list string)) :=
  match l with
  | [] => Ok file_ports
  | (service_name, service_data) :: r =>
      file_ports' <- service_step service_name service_data file_ports ;;
      services_loop r file_ports'
  end.

Definition is_empty {A : Type} (l : list A) : bool :=
  match l with
  | [] => true
  | _ :: _ => false
  end.

Section ComposeSpecReader.

(** [open(file_path)] followed by [yaml.safe_load]: [Raise OSError] or
    [Raise YAMLError] when either fails. *)
Variable load : string -> result pyval.

(** What the [try] block computes for one file before the final [if]. *)
Definition read_file_ports (file_path : string)
  : result (list (string * list string)) :=
  compose_data <- load file_path ;;
  services <- get_services compose_data ;;
  l <- items services ;;
  services_loop l [].

(** The whole function: the index, and the diagnostics printed by the
    [except] clause in order. *)
Fixpoint get_ports_loop (files : list string)
    (ports : list (string * list (string * list string)))
    (diagnostics : list (string * exn))
  : list (string * list (string * list string)) * list (string * exn) :=
  match files with
  | [] => (ports, diagnostics)
  | file_path :: r =>
      match read_file_ports file_path with
      | Ok file_ports =>
          if is_empty file_ports then get_ports_loop r ports diagnostics
          else get_ports_loop r (dict_set file_path file_ports ports) diagnostics
      | Raise e =>
          get_ports_loop r ports (diagnostics ++ [(file_path, e)])%list
      end
  end.

Definition get_ports_from_docker_compose (files : list string) :=
  get_ports_loop files [] [].

End ComposeSpecReader.

(** ** PortReconciler: the unused-port section of [list_ports] *)

(** [[p for c in running_ports.values() for p in c]] *)
Definition bound_ports (running_ports : list (string * list string)) : list string :=
  flat_map snd running_ports.

(** [[port for port in ports if port not in [...]]] *)
Definition unused_ports (ports : list string)
    (running_ports : list (string * list string)) : list string :=
  filter (fun port => negb (str_in port (bound_ports running_ports))) ports.

(** A printed line of a report section, before [", ".join] renders the
    ports. *)
Inductive line : Type :=
| FileLine (file_path : string)
| ServiceLine (service : string) (ports : list string).

Definition unused_service_lines (services : list (string * list string))
    (running_ports : list (string * list string)) : list line :=
  flat_map (fun '(service, ports) =>
              let unused := unused_ports ports running_ports in
              if is_empty unused then [] else [ServiceLine service unused])
           services.

Definition unused_section
    (compose_ports : list (string * list (string * list string)))
    (running_ports : list (string * list string)) : list line :=
  flat_map (fun '(file_path, services) =>
              FileLine file_path :: unused_service_lines services running_ports)
           compose_ports.

(** ** ActionDispatcher: [execute_docker_compose_command], [prompt_user_action] *)

Definition code (c : ascii) : nat := nat_of_ascii c.

(** [str.isspace] on the code points below 256. *)
Definition is_space (c : ascii) : bool :=
  let n := code c in
  (((9 <=? n) && (n <=? 13)) || ((28 <=? n) && (n <=? 32))
   || (n =? 133) || (n =? 160))%nat.

Fixpoint lstrip (s : string) : string :=
  match s with
  | EmptyString => EmptyString
  | String c r => if is_space c then lstrip r else s
  end.

Fixpoint rstrip (s : string) : string :=
  match s with
  | EmptyString => EmptyString
  | String c r =>
      match rstrip r with
      | EmptyString => if is_space c then EmptyString else String c EmptyString
      | r' => String c r'
      end
  end.

(** [s.strip()] *)
Definition strip (s : string) : string := rstrip (lstrip s).

Definition lower_char (c : ascii) : ascii :=
  let n := code c in
  if (((65 <=? n) && (n <=? 90)) || ((192 <=? n) && (n <=? 214))
      || ((216 <=? n) && (n <=? 222)))%nat
  then ascii_of_nat (n + 32) else c.

(** [s.lower()] *)
Fixpoint lower (s : string) : string :=
  match s with
  | EmptyString => EmptyString
  | String c r => String (lower_char c) (lower r)
  end.

Definition digit (c : ascii) : option Z :=
  let n := code c in
  if ((48 <=? n) && (n <=? 57))%nat then Some (Z.of_nat (n - 48)) else None.

(** Decimal digits with single underscores between them, as [int] reads
    them; [after_digit] says whether the previous character was a digit. *)
Fixpoint digits (s : string) (acc : Z) (after_digit : bool) : option Z :=
  match s with
  | EmptyString => if after_digit then Some acc else None
  | String c r =>
      if Ascii.eqb c "_"%char then
        if after_digit then digits r acc false else None
      else match digit c with
           | Some d => digits r (10 * acc + d)%Z true
           | None => None
           end
  end.

(** [int(s)] for a string argument. *)
Definition int (s : string) : result Z :=
  let parsed :=
    match strip s with
    | String "+"%char r => digits r 0%Z false
    | String "-"%char r => option_map Z.opp (digits r 0%Z false)
    | t => digits t 0%Z false
    end in
  match parsed with
  | Some z => Ok z
  | None => Raise ValueError
  end.

Definition actions : list string := ["start"; "stop"; "restart"].

(** What the operator sees and what is run, in order. *)
Inductive event : Type :=
| ShowMenu (files : list string)      (* the listing and its two option lines *)
| AskChoice                           (* the selection prompt *)
| AskBulkAction                       (* the action prompt of the bulk branch *)
| AskAction                           (* the action prompt of the single-file branch *)
| InvalidAction                       (* the invalid-action message *)
| InvalidChoice                       (* the invalid-selection message *)
| Run (argv : list string)            (* subprocess.run *)
| Completed (file_path command : string)
| Failed (file_path command : string).

(** How [subprocess.run(..., check=True)] ends: the command ran and exited
    with a status, or it could not be started at all. *)
Inductive outcome : Type :=
| Exit (status : Z)
| NotStarted (e : exn).

(** How [prompt_user_action] ends: by [break], or by an exception that no
    handler of the loop catches. *)
Inductive ending : Type :=
| Exited
| Uncaught (e : exn).

Section ActionDispatcher.

Variable World : Type.
Variable subprocess_run : World -> list string -> World * outcome.

(** Events come out in program order. *)
Definition emit {A : Type} (evs : list event) (r : A * list event * World)
  : A * list event * World :=
  let '(a, t, w) := r in (a, (evs ++ t)%list, w).

Definition execute_docker_compose_command (file_path command : string)
    (w : World) : option exn * list event * World :=
  let argv := ["docker-compose"; "-f"; file_path; command] in
  match subprocess_run w argv with
  | (w', Exit status) =>
      if (status =? 0)%Z
      then (None, [Run argv; Completed file_path command], w')
      else (None, [Run argv; Failed file_path command], w')
  | (w', NotStarted e) => (Some e, [Run argv], w')
  end.

(** [for file_path in docker_compose_files: execute_...(file_path, action)] *)
Fixpoint execute_all (files : list string) (action : string) (w : World)
  : option exn * list event * World :=
  match files with
  | [] => (None, [], w)
  | file_path :: r =>
      match execute_docker_compose_command file_path action w with
      | (None, evs, w') => emit evs (execute_all r action w')
      | (Some e, evs, w') => (Some e, evs, w')
      end
  end.

(** The [while True] loop, fed with the lines [input] will return; [input]
    on exhausted input raises [EOFError]. *)
Fixpoint prompt_user_action (docker_compose_files : list string)
    (inputs : list string) (w : World) {struct inputs}
  : ending * list event * World :=
  emit [ShowMenu docker_compose_files; AskChoice]
    match inputs with
    | [] => (Uncaught EOFError, [], w)
    | line1 :: rest =>
        let choice := strip line1 in
        if str_in choice ["0"; ""] then (Exited, [], w)
        else if String.eqb (lower choice) "a" then
          emit [AskBulkAction]
            match rest with
            | [] => (Uncaught EOFError, [], w)
            | line2 :: rest' =>
                let action := lower (strip line2) in
                if str_in action actions then
                  match execute_all docker_compose_files action w with
                  | (None, evs, w') =>
                      emit evs (prompt_user_action docker_compose_files rest' w')
                  | (Some e, evs, w') => (Uncaught e, evs, w')
                  end
                else
                  emit [InvalidAction]
                    (prompt_user_action docker_compose_files rest' w)
            end
        else
          match (n <- int choice ;; py_getitem docker_compose_files (n - 1)%Z) with
          | Ok file_path =>
              emit [AskAction]
                match rest with
                | [] => (Uncaught EOFError, [], w)
                | line2 :: rest' =>
                    let action := lower (strip line2) in
                    if str_in action actions then
                      match execute_docker_compose_command file_path action w with
                      | (None, evs, w') =>
                          emit evs
                            (prompt_user_action docker_compose_files rest' w')
                      | (Some ValueError, evs, w') | (Some IndexError, evs, w') =>
                          (* raised inside the [try]: the handler takes it *)
                          emit (evs ++ [InvalidChoice])
                            (prompt_user_action docker_compose_files rest' w')
                      | (Some e, evs, w') => (Uncaught e, evs, w')
                      end
                    else
                      emit [InvalidAction]
                        (prompt_user_action docker_compose_files rest' w)
                end
          | Raise ValueError | Raise IndexError =>
              emit [InvalidChoice]
                (prompt_user_action docker_compose_files rest w)
          | Raise e => (Uncaught e, [], w)
          end
    end.

End ActionDispatcher.

(** The [Run] events of a trace, as (file, command) pairs. *)
Fixpoint attempts (t : list event) : list (string * string) :=
  match t with
  | [] => []
  | Run [_; _; file_path; command] :: r => (file_path, command) :: attempts r
  | _ :: r => attempts r
  end.

(** The success and failure reports of a trace. *)
Fixpoint reports (t : list event) : list (string * string) :=
  match t with
  | [] => []
  | Completed f c :: r => (f, c) :: reports r
  | Failed f c :: r => (f, c) :: reports r
  | _ :: r => reports r
  end.

(** The events of a run of the dispatcher. *)
Definition trace {A W : Type} (r : A * list event * W) : list event :=
  snd (fst r).

(** A regular-expression engine for patterns without metacharacters: the
    pattern is found when it occurs in the string. *)
Definition literal_search (pattern s : string) : result bool :=
  Ok (is_substring pattern s).

(** [dirpath] completed by a separator, the way [join] uses it. *)
Definition as_prefix (p : string) : string :=
  if (String.eqb p "" || OsPath.ends_with_sep p)%bool
  then p else p ++ String OsPath.sep "".

(** A string [join] can put in front of a name unchanged. *)
Definition dirlike (q : string) : Prop :=
  q = "" \/ OsPath.ends_with_sep q = true.

(** The loop over the subdirectories inside [os_walk]. *)
Definition walk_subs {A : Type}
    (body : string -> list string -> list string -> A -> result (A * bool))
    (top : string) : list dir -> A -> result A :=
  fix each (l : list dir) (a : A) {struct l} : result A :=
    match l with
    | [] => Ok a
    | s :: r =>
        match os_walk body (OsPath.join top (dname s)) s a with
        | Raise e => Raise e
        | Ok a' => each r a'
        end
    end.

(** A directory the loop body looks into and lets the walk descend from:
    within the depth bound and matched by no pattern. *)
Definition scanned (re_search : string -> string -> result bool)
    (root_path : string) (max_depth : Z) (patterns : list string)
    (dirpath : string) : Prop :=
  (depth root_path dirpath < max_depth)%Z
  /\ any_search re_search patterns dirpath = Ok false.

(** [S] holds at [top] and at every directory on the way down the names
    [ns]. *)
Inductive along (S : string -> Prop) : string -> list string -> Prop :=
| along_nil : forall top, S top -> along S top []
| along_cons : forall top n ns,
    S top -> along S (OsPath.join top n) ns -> along S top (n :: ns).

(** [r] is the compose file of a directory of [d], all of whose ancestors up
    to [top], and itself, satisfy [S]. *)
Definition found_below (S : string -> Prop) (top : string) (d : dir)
    (r : string) : Prop :=
  exists ns e,
    descend d ns e /\ along S top ns /\ In compose_name (dfiles e)
    /\ r = OsPath.join (path_of top ns) compose_name.

(** Every directory of the tree can be listed. *)
Fixpoint fully_listed (d : dir) : bool :=
  match d with
  | Dir _ listed _ subs => listed && forallb fully_listed subs
  end.

(** ** Vocabulary of the reconciliation properties *)

(** [l1] is [l2] with some elements left out, the others in their order. *)
Inductive subseq {A : Type} : list A -> list A -> Prop :=
| subseq_nil : subseq [] []
| subseq_skip : forall x l1 l2, subseq l1 l2 -> subseq l1 (x :: l2)
| subseq_keep : forall x l1 l2, subseq l1 l2 -> subseq (x :: l1) (x :: l2).

(** [p] is bound by some running container: it belongs to the union of the
    port lists of [running_ports]. *)
Definition bound_by_some (running_ports : list (string * list string))
    (p : string) : Prop :=
  exists container ps, In (container, ps) running_ports /\ In p ps.

(** ** Sample inputs *)

Definition sample_db : dir := Dir "db" true [compose_name] [].
Definition sample_app : dir := Dir "app" true [compose_name; "Makefile"] [sample_db].
Definition sample_old : dir := Dir "old" true [compose_name] [].
Definition sample_bk : dir := Dir "app_bk" true [compose_name] [sample_old].
Definition sample_tree : dir := Dir "." true ["README.md"] [sample_app; sample_bk].

Definition sample_doc_a : pyval :=
  PDict [("version", PStr "3");
         ("services",
          PDict [("web", PDict [("image", PStr "nginx");
                                ("ports", PList [PStr "8080:80";
                                                 PStr "127.0.0.1:9090:90"])]);
                 ("worker", PDict [("image", PStr "worker")])])].

Definition sample_doc_b : pyval :=
  PDict [("services",
          PDict [("api", PDict [("ports", PList [PStr "3000:3000/tcp"])]);
                 ("db", PDict [("ports", PList [PInt 5432])])])].

Definition sample_load (file_path : string) : result pyval :=
  if String.eqb file_path "a/docker-compose.yml" then Ok sample_doc_a
  else if String.eqb file_path "b/docker-compose.yml" then Ok sample_doc_b
  else Raise OSError.

(** The command always succeeds. *)
Definition always_succeeds (w : unit) (argv : list string) : unit * outcome :=
  (tt, Exit 0).

(** The world counts the commands run so far; the second one fails. *)
Definition second_fails (w : nat) (argv : list string) : nat * outcome :=
  (S w, if Nat.eqb w 1 then Exit 1 else Exit 0).

(** ** Vocabulary of the bulk property *)

(** What bulk mode is to do, said without the dispatcher: the command is run
    on every file in order, each run starting from the world the previous one
    left, whatever the outcomes; the result pairs each file with the outcome
    of its run and gives the world after the last one. *)
Fixpoint bulk_outcomes {World : Type}
    (subprocess_run : World -> list string -> World * outcome)
    (files : list string) (action : string) (w : World)
  : list (string * outcome) * World :=
  match files with
  | [] => ([], w)
  | file_path :: r =>
      let '(w1, o) :=
        subprocess_run w ["docker-compose"; "-f"; file_path; action] in
      let '(os, w2) := bulk_outcomes subprocess_run r action w1 in
      ((file_path, o) :: os, w2)
  end.

(** What is to be seen for one file and its outcome: the run, then the
    success report when the exit status is 0 and the failure report for any
    other status. *)
Definition report_of (action : string) (fo : string * outcome) : list event :=
  let '(file_path, o) := fo in
  Run ["docker-compose"; "-f"; file_path; action]
  :: match o with
     | Exit status =>
         [if (status =? 0)%Z then Completed file_path action
          else Failed file_path action]
     | NotStarted _ => []
     end.

(** ** Statements of the specification that the program does not satisfy *)

(** C4 as the specification has it: after an invalid action the dispatcher
    asks for the action again and keeps the selection, so a valid action
    entered next is run on the selected file. *)
Definition invalid_action_keeps_selection : Prop :=
  forall (World : Type) (subprocess_run : World -> list string -> World * outcome)
         (files : list string) (w : World)
         (line1 bad good : string) (rest : list string) (file_path : string),
    str_in (strip line1) ["0"; ""] = false ->
    String.eqb (lower (strip line1)) "a" = false ->
    (n <- int (strip line1) ;; py_getitem files (n - 1)%Z) = Ok file_path ->
    str_in (lower (strip bad)) actions = false ->
    str_in (lower (strip good)) actions = true ->
    In (Run ["docker-compose"; "-f"; file_path; lower (strip good)])
       (trace (prompt_user_action World subprocess_run files
                 (line1 :: bad :: good :: rest) w)).

(** C2, as the specification has it: a directory whose depth is exactly
    [max_depth] still has its compose file found. *)
Definition max_depth_directories_are_scanned : Prop :=
  forall (re_search : string -> string -> result bool)
         (root_path : string) (max_depth : Z) (fs : dir)
         (ns : list string) (d : dir) (res : list string),
    fully_listed fs = true ->
    descend fs ns d ->
    depth root_path (path_of root_path ns) = max_depth ->
    In compose_name (dfiles d) ->
    find_docker_compose_files re_search root_path max_depth None fs = Ok res ->
    In (OsPath.join (path_of root_path ns) compose_name) res.

(** ** RuntimeInspector: [get_ports_from_running_containers]

    What the program reads of a running container: [container.name] and
    [container.attrs["NetworkSettings"]["Ports"]], which the Docker API gives
    as a mapping from ["port/proto"] to [null] or a list of bindings, each a
    mapping with string values. *)

Record container : Type := Container {
  cname : string;
  cports : list (string * option (list (list (string * string))))
}.

(** One turn of [for port_data in ....values()]: [None] and the empty list are
    falsy; of the others, the [HostPort] of each binding that has one. *)
Definition host_ports_of (port_data : option (list (list (string * string))))
  : list string :=
  match port_data with
  | None => []
  | Some [] => []
  | Some bindings =>
      flat_map (fun port => match dict_get "HostPort" port with
                            | Some host_port => [host_port]
                            | None => []
                            end) bindings
  end.

(** [container_ports] when the inner loop is over. *)
Definition container_ports (c : container) : list string :=
  flat_map (fun kv => host_ports_of (snd kv)) (cports c).

Fixpoint running_loop (containers : list container)
    (running_ports : list (string * list string)) : list (string * list string) :=
  match containers with
  | [] => running_ports
  | c :: r =>
      running_loop r (dict_set (cname c) (container_ports c) running_ports)
  end.

(** [docker] is what [docker.from_env()] followed by
    [client.containers.list()] gives: the running containers, or the exception
    either call raised. *)
Definition get_ports_from_running_containers (docker : result (list container))
  : result (list (string * list string)) :=
  containers <- docker ;;
  Ok (running_loop containers []).

(** ** The menu of [prompt_user_action] *)

(** [str(n)] for a natural number. *)
Definition str_of_nat (n : nat) : string :=
  DecimalString.NilZero.string_of_uint (Nat.to_uint n).

(** [enumerate(l, start)] *)
Fixpoint enumerate {A : Type} (l : list A) (start : nat) : list (nat * A) :=
  match l with
  | [] => []
  | x :: r => (start, x) :: enumerate r (S start)
  end.

(** The numbered lines of the listing, [f"{idx}: {file_path}"]. *)
Definition menu_lines (docker_compose_files : list string) : list string :=
  map (fun '(idx, file_path) => str_of_nat idx ++ ": " ++ file_path)
      (enumerate docker_compose_files 1).

(** [sep.join(l)] *)
Fixpoint str_join (sep : string) (l : list string) : string :=
  match l with
  | [] => ""
  | [x] => x
  | x :: r => x ++ sep ++ str_join sep r
  end.

(** ** [list_ports] *)

(** What [list_ports] prints before it starts the dispatcher. *)
Inductive printed : Type :=
| NotFound                                  (* no compose file was found *)
| ReadError (file_path : string) (e : exn)  (* by [get_ports_from_docker_compose] *)
| DeclaredHeader
| UnusedHeader
| RunningHeader
| Report (l : line)
| ContainerLine (name : string) (ports : list string)
| NoContainers.

(** The section of declared ports: a header per file, a line per service of
    the index. *)
Definition declared_section
    (compose_ports : list (string * list (string * list string))) : list line :=
  flat_map (fun '(file_path, services) =>
              FileLine file_path
              :: map (fun '(service, ports) => ServiceLine service ports) services)
           compose_ports.

(** The section of running containers; an empty dictionary is falsy. *)
Definition running_section (running_ports : list (string * list string))
  : list printed :=
  if is_empty running_ports then [NoContainers]
  else map (fun '(name, ports) => ContainerLine name ports) running_ports.

Section ListPorts.

Variable re_search : string -> string -> result bool.
Variable load : string -> result pyval.
Variable docker : result (list container).
Variable World : Type.
Variable subprocess_run : World -> list string -> World * outcome.

(** The exception that ended the call, if any; what was printed; what the
    dispatcher did; the world afterwards. *)
Definition list_ports (root_path : string) (max_depth : Z)
    (exclude_patterns : option (list string)) (fs : dir)
    (inputs : list string) (w : World)
  : option exn * list printed * list event * World :=
  match find_docker_compose_files re_search root_path max_depth
          exclude_patterns fs with
  | Raise e => (Some e, [], [], w)
  | Ok [] => (None, [NotFound], [], w)
  | Ok docker_compose_files =>
      let '(compose_ports, diagnostics) :=
        get_ports_from_docker_compose load docker_compose_files in
      let read_errors := map (fun '(f, e) => ReadError f e) diagnostics in
      match get_ports_from_running_containers docker with
      | Raise e => (Some e, read_errors, [], w)
      | Ok running_ports =>
          let out :=
            (read_errors
             ++ DeclaredHeader :: map Report (declared_section compose_ports)
             ++ UnusedHeader
                :: map Report (unused_section compose_ports running_ports)
             ++ RunningHeader :: running_section running_ports)%list in
          match prompt_user_action World subprocess_run
                  docker_compose_files inputs w with
          | (Exited, t, w') => (None, out, t, w')
          | (Uncaught e, t, w') => (Some e, out, t, w')
          end
      end
  end.

End ListPorts.

(** ** Vocabulary of the further properties *)

(** [os.walk] yields [(p, e)] when it is run on [d] at [top] and the loop body
    lets it descend from every directory that satisfies [S]. *)
Inductive yields (S : string -> Prop) : string -> dir -> string -> dir -> Prop :=
| yields_here : forall top d, dlisted d = true -> yields S top d top d
| yields_down : forall top d s p e,
    dlisted d = true -> S top -> In s (dsubs d) ->
    yields S (OsPath.join top (dname s)) s p e ->
    yields S top d p e.

(** Sibling directories have different names, all the way down. *)
Fixpoint distinct_siblings (d : dir) : Prop :=
  match d with
  | Dir _ _ _ subs =>
      NoDup (map dname subs)
      /\ (fix all (l : list dir) : Prop :=
            match l with
            | [] => True
            | s :: r => distinct_siblings s /\ all r
            end) subs
  end.

(** The file gets an entry: it was read to the end and declares a port. *)
Definition indexed (load : string -> result pyval) (file_path : string) : bool :=
  match read_file_ports load file_path with
  | Ok (_ :: _) => true
  | _ => false
  end.

(** The diagnostic of one file, if its processing raised. *)
Definition diagnostic_of (load : string -> result pyval) (file_path : string)
  : list (string * exn) :=
  match read_file_ports load file_path with
  | Raise e => [(file_path, e)]
  | Ok _ => []
  end.

(** The host ports some binding of the container publishes. *)
Definition publishes (c : container) (p : string) : Prop :=
  exists key bindings port,
    In (key, Some bindings) (cports c) /\ In port bindings
    /\ dict_get "HostPort" port = Some p.

(** A [Run] event of the dispatcher for one of the files and one of the three
    actions. *)
Definition permitted_run (files : list string) (ev : event) : Prop :=
  match ev with
  | Run argv =>
      exists file_path action,
        argv = ["docker-compose"; "-f"; file_path; action]
        /\ In file_path files /\ In action actions
  | _ => True
  end.

Definition sample_containers : list container :=
  [Container "web_1" [("80/tcp", Some [[("HostIp", "0.0.0.0"); ("HostPort", "8080")];
                                       [("HostIp", "::"); ("HostPort", "8080")]]);
                      ("443/tcp", None)];
   Container "db_1" []].

(** The world counts the commands run so far; the second one cannot be
    started. *)
Definition second_cannot_start (w : nat) (argv : list string) : nat * outcome :=
  (S w, if Nat.eqb w 1 then NotStarted OSError else Exit 0).

(** How a run of the dispatcher ended. *)
Definition ending_of {W : Type} (r : ending * list event * W) : ending :=
  fst (fst r).

(** * Properties *)

(** ** Strings and paths *)

Lemma str_length_app (a b : string) :
  String.length (a ++ b) = String.length a + String.length b.
Proof. induction a as [|c a IH]; simpl; [reflexivity | now rewrite IH]. Qed.

Lemma str_app_assoc (a b c : string) : (a ++ b) ++ c = a ++ (b ++ c).
Proof. induction a as [|x a IH]; simpl; [reflexivity | now rewrite IH]. Qed.

Lemma str_app_nil_r (a : string) : a ++ "" = a.
Proof. induction a as [|x a IH]; simpl; [reflexivity | now rewrite IH]. Qed.

Lemma str_app_inv_tail (a b t : string) : a ++ t = b ++ t -> a = b.
Proof.
  revert b; induction a as [|x a IH]; intros [|y b] H; simpl in H.
  - reflexivity.
  - apply (f_equal String.length) in H; simpl in H.
    rewrite str_length_app in H; lia.
  - apply (f_equal String.length) in H; simpl in H.
    rewrite str_length_app in H; lia.
  - injection H as -> H. now rewrite (IH b H).
Qed.

Lemma count_char_app (c : ascii) (a b : string) :
  count_char c (a ++ b) = count_char c a + count_char c b.
Proof. induction a as [|x a IH]; simpl; [reflexivity | rewrite IH; lia]. Qed.

Lemma count_char_slice_le (c : ascii) (n : nat) (s : string) :
  count_char c (slice_from n s) <= count_char c s.
Proof.
  revert s; induction n as [|n IH]; intros [|x s]; simpl; try lia.
  specialize (IH s); lia.
Qed.

Lemma count_char_slice_app (c : ascii) (n : nat) (a b : string) :
  count_char c (slice_from n (a ++ b))
  <= count_char c (slice_from n a) + count_char c b.
Proof.
  revert a; induction n as [|n IH]; intros a.
  - simpl. rewrite count_char_app. lia.
  - destruct a as [|x a]; simpl.
    + pose proof (count_char_slice_le c (S n) b) as H. simpl in H. exact H.
    + apply IH.
Qed.

Lemma str_in_In (x : string) (l : list string) : str_in x l = true <-> In x l.
Proof.
  induction l as [|y l IH]; simpl.
  - split; [discriminate | tauto].
  - destruct (String.eqb_spec x y) as [->|N].
    + split; auto.
    + rewrite IH. split; [auto | intros [E|H]; [congruence | exact H]].
Qed.

Module PathFacts.
Import OsPath.

Lemma join_shape (a b : string) :
  starts_with_sep b = false -> join a b = a ++ b \/ join a b = a ++ String sep b.
Proof.
  intros H. unfold join. rewrite H.
  destruct (String.eqb a "" || ends_with_sep a)%bool; auto.
Qed.

Lemma no_sep_start (n : string) : count_char sep n = 0 -> starts_with_sep n = false.
Proof.
  destruct n as [|c n]; simpl; [reflexivity |].
  destruct (Ascii.eqb c sep); [discriminate | reflexivity].
Qed.

Lemma entry_name_spec (n : string) :
  entry_name n = true <-> n <> "" /\ count_char sep n = 0.
Proof.
  unfold entry_name. rewrite andb_true_iff, negb_true_iff, Nat.eqb_eq.
  now rewrite String.eqb_neq.
Qed.

Lemma join_as_prefix (p n : string) :
  count_char sep n = 0 -> join p n = as_prefix p ++ n.
Proof.
  intros H. unfold join, as_prefix. rewrite (no_sep_start n H).
  destruct (String.eqb p "" || ends_with_sep p)%bool; [reflexivity |].
  now rewrite str_app_assoc.
Qed.

Lemma ends_with_sep_app (a b : string) :
  b <> "" -> ends_with_sep (a ++ b) = ends_with_sep b.
Proof.
  intros Hb. induction a as [|c a IH]; [reflexivity |].
  simpl. destruct (a ++ b) eqn:E; [| exact IH].
  destruct a; simpl in E; [congruence | discriminate].
Qed.

Lemma ends_with_sep_count (q : string) :
  ends_with_sep q = true -> 1 <= count_char sep q.
Proof.
  induction q as [|c q IH]; simpl; [discriminate |].
  destruct q as [|d q].
  - intros ->. simpl. lia.
  - intros H. specialize (IH H). lia.
Qed.

Lemma no_sep_end (n : string) : count_char sep n = 0 -> ends_with_sep n = false.
Proof.
  intros H. destruct (ends_with_sep n) eqn:E; [| reflexivity].
  apply ends_with_sep_count in E. lia.
Qed.

Lemma dirlike_as_prefix (p : string) : dirlike (as_prefix p).
Proof.
  unfold as_prefix, dirlike.
  destruct (String.eqb_spec p "") as [->|N]; simpl; [now left |].
  destruct (ends_with_sep p) eqn:E; [now right |].
  right. rewrite ends_with_sep_app by discriminate. reflexivity.
Qed.

Lemma dirlike_tail (c : ascii) (q : string) : dirlike (String c q) -> dirlike q.
Proof.
  intros [H|H]; [discriminate |].
  destruct q as [|d q]; [now left | right; exact H].
Qed.

Lemma dirlike_count (q : string) : dirlike q -> q <> "" -> 1 <= count_char sep q.
Proof. intros [H|H] N; [congruence | now apply ends_with_sep_count]. Qed.

(** A directory prefix followed by a separator-free name splits in one
    way only. *)
Lemma prefix_name_inj (q q' n n' : string) :
  dirlike q -> dirlike q' ->
  count_char sep n = 0 -> count_char sep n' = 0 ->
  q ++ n = q' ++ n' -> q = q' /\ n = n'.
Proof.
  revert q'. induction q as [|c q IH]; intros q' Hq Hq' Hn Hn' E.
  - destruct q' as [|c' q']; [simpl in E; auto |].
    exfalso. simpl in E. rewrite E in Hn.
    pose proof (dirlike_count _ Hq' ltac:(discriminate)) as H.
    change (String c' (q' ++ n')) with (String c' q' ++ n') in Hn.
    rewrite count_char_app in Hn. lia.
  - destruct q' as [|c' q'].
    + exfalso. simpl in E. rewrite <- E in Hn'.
      pose proof (dirlike_count _ Hq ltac:(discriminate)) as H.
      change (String c (q ++ n)) with (String c q ++ n) in Hn'.
      rewrite count_char_app in Hn'. lia.
    + simpl in E. injection E as -> E.
      destruct (IH q' (dirlike_tail _ _ Hq) (dirlike_tail _ _ Hq') Hn Hn' E)
        as [-> ->].
      auto.
Qed.

Lemma join_inj (p p' n n' : string) :
  count_char sep n = 0 -> count_char sep n' = 0 ->
  join p n = join p' n' -> as_prefix p = as_prefix p' /\ n = n'.
Proof.
  intros Hn Hn' E. rewrite !join_as_prefix in E by assumption.
  apply prefix_name_inj; auto using dirlike_as_prefix.
Qed.

Lemma join_proper (p n : string) :
  entry_name n = true ->
  join p n <> "" /\ ends_with_sep (join p n) = false
  /\ String.length p < String.length (join p n).
Proof.
  intros H. apply entry_name_spec in H as [Hne H0].
  assert (Hlen : 0 < String.length n) by (destruct n; simpl; [congruence | lia]).
  repeat split.
  - intros E. apply (f_equal String.length) in E.
    rewrite join_as_prefix, str_length_app in E by assumption. simpl in E. lia.
  - rewrite join_as_prefix, ends_with_sep_app by assumption.
    now apply no_sep_end.
  - destruct (join_shape p n (no_sep_start n H0)) as [-> | ->];
      rewrite str_length_app; simpl; lia.
Qed.

Lemma as_prefix_proper (p : string) :
  p <> "" -> ends_with_sep p = false -> as_prefix p = p ++ String sep "".
Proof.
  intros N E. unfold as_prefix. rewrite E.
  destruct (String.eqb_spec p ""); [congruence | reflexivity].
Qed.

Lemma as_prefix_length (p : string) :
  String.length (as_prefix p) <= String.length p + 1.
Proof.
  unfold as_prefix. destruct (String.eqb p "" || ends_with_sep p)%bool.
  - lia.
  - rewrite str_length_app. simpl. lia.
Qed.

Lemma path_of_snoc (top : string) (ns : list string) (n : string) :
  path_of top (ns ++ [n]) = join (path_of top ns) n.
Proof. unfold path_of. now rewrite fold_left_app. Qed.

Lemma path_of_app (top : string) (ns ms : list string) :
  path_of top (ns ++ ms) = path_of (path_of top ns) ms.
Proof. unfold path_of. now rewrite fold_left_app. Qed.

Lemma path_of_length (top : string) (ns : list string) :
  Forall (fun n => entry_name n = true) ns ->
  String.length top <= String.length (path_of top ns).
Proof.
  unfold path_of. revert top.
  induction ns as [|n ns IH]; intros top H; cbn [fold_left]; [lia |].
  inversion H as [|? ? Hn Hns]; subst.
  specialize (IH (join top n) Hns).
  pose proof (join_proper top n Hn) as (_ & _ & L). lia.
Qed.

(** Below one root, the path string determines the names it was built
    from. *)
Lemma path_of_inj (top : string) (ns ns' : list string) :
  Forall (fun n => entry_name n = true) ns ->
  Forall (fun n => entry_name n = true) ns' ->
  as_prefix (path_of top ns) = as_prefix (path_of top ns') -> ns = ns'.
Proof.
  revert ns'. induction ns as [|n ns IH] using rev_ind;
    intros ns' H H' E; destruct ns' as [|n' ns' _] using rev_ind.
  - reflexivity.
  - exfalso. apply Forall_app in H' as [H1 H2]. inversion H2; subst.
    rewrite path_of_snoc in E.
    pose proof (join_proper (path_of top ns') n' ltac:(assumption)) as (A & B & C).
    rewrite (as_prefix_proper _ A B) in E.
    apply (f_equal String.length) in E. rewrite str_length_app in E. simpl in E.
    pose proof (as_prefix_length (path_of top [])) as L.
    pose proof (path_of_length top ns' H1) as L'. simpl in L, E. lia.
  - exfalso. apply Forall_app in H as [H1 H2]. inversion H2; subst.
    rewrite path_of_snoc in E.
    pose proof (join_proper (path_of top ns) n ltac:(assumption)) as (A & B & C).
    rewrite (as_prefix_proper _ A B) in E.
    apply (f_equal String.length) in E. rewrite str_length_app in E. simpl in E.
    pose proof (as_prefix_length (path_of top [])) as L.
    pose proof (path_of_length top ns H1) as L'. simpl in L, E. lia.
  - apply Forall_app in H as [H1 H2]. inversion H2 as [|? ? Hn _]; subst.
    apply Forall_app in H' as [H1' H2']. inversion H2' as [|? ? Hn' _]; subst.
    rewrite !path_of_snoc in E.
    pose proof (join_proper (path_of top ns) n Hn) as (A & B & _).
    pose proof (join_proper (path_of top ns') n' Hn') as (A' & B' & _).
    rewrite (as_prefix_proper _ A B), (as_prefix_proper _ A' B') in E.
    apply str_app_inv_tail in E.
    apply entry_name_spec in Hn as [_ Hn]. apply entry_name_spec in Hn' as [_ Hn'].
    apply join_inj in E as [E ->]; try assumption.
    now rewrite (IH ns' H1 H1' E).
Qed.

Lemma depth_join (root p n : string) :
  count_char sep n = 0 -> (depth root (join p n) <= depth root p + 1)%Z.
Proof.
  intros H. unfold depth.
  destruct (join_shape p n (no_sep_start n H)) as [-> | ->].
  - pose proof (count_char_slice_app sep (String.length root) p n). lia.
  - pose proof (count_char_slice_app sep (String.length root) p (String sep n)) as L.
    simpl in L. rewrite H in L. lia.
Qed.

End PathFacts.

(** ** The walk *)

Lemma dir_induction (P : dir -> Prop) :
  (forall n l fs subs, (forall s, In s subs -> P s) -> P (Dir n l fs subs)) ->
  forall d, P d.
Proof.
  intros H. fix IH 1. intros [n l fs subs]. apply H.
  induction subs as [|s subs IHs]; intros x Hx; [destruct Hx |].
  destruct Hx as [<- | Hx]; [apply IH | now apply IHs].
Qed.

Lemma os_walk_eq {A : Type}
    (body : string -> list string -> list string -> A -> result (A * bool))
    (top n : string) (l : bool) (fs : list string) (subs : list dir) (acc : A) :
  os_walk body top (Dir n l fs subs) acc =
  if l then
    match body top (map dname subs) fs acc with
    | Raise e => Raise e
    | Ok (acc1, keep) => if keep then walk_subs body top subs acc1 else Ok acc1
    end
  else Ok acc.
Proof. reflexivity. Qed.

Lemma along_head (S : string -> Prop) (top : string) (ns : list string) :
  along S top ns -> S top.
Proof. now inversion 1. Qed.

Lemma along_prefix (S : string -> Prop) (ns ms : list string) :
  forall top, along S top (ns ++ ms) -> S (path_of top ns).
Proof.
  induction ns as [|n ns IH]; intros top H.
  - exact (along_head _ _ _ H).
  - inversion H; subst. now apply IH.
Qed.

Lemma descend_names (d : dir) (ns : list string) (e : dir) :
  descend d ns e -> proper_tree d = true ->
  Forall (fun n => entry_name n = true) ns /\ proper_tree e = true.
Proof.
  induction 1 as [d | d s ns e Hin _ IH]; intros Hd; [auto |].
  destruct d as [n l fs subs]. simpl in Hin, Hd.
  apply andb_true_iff in Hd as [_ Hd].
  rewrite forallb_forall in Hd. specialize (Hd s Hin).
  apply andb_true_iff in Hd as [Hn Hs].
  destruct (IH Hs). auto.
Qed.

Lemma descend_trans (d : dir) (ns : list string) (e : dir) :
  descend d ns e -> forall ms f, descend e ms f -> descend d (ns ++ ms) f.
Proof.
  induction 1 as [d | d s ns e Hin _ IH]; intros ms f H; [exact H |].
  simpl. constructor; auto.
Qed.

Lemma proper_files (d : dir) (f : string) :
  proper_tree d = true -> In f (dfiles d) -> entry_name f = true.
Proof.
  destruct d as [n l fs subs]. simpl. intros H Hin.
  apply andb_true_iff in H as [H _]. rewrite forallb_forall in H. auto.
Qed.

Section ScanFacts.

Variable re_search : string -> string -> result bool.
Variables (root_path : string) (max_depth : Z) (patterns : list string).

Local Abbreviation body := (visit re_search root_path max_depth patterns).
Local Abbreviation seen := (scanned re_search root_path max_depth patterns).

Lemma visit_cases (top : string) (dn fs acc acc1 : list string) (keep : bool) :
  body top dn fs acc = Ok (acc1, keep) ->
  (keep = false /\ acc1 = acc)
  \/ (keep = true /\ seen top
      /\ (acc1 = acc
          \/ (In compose_name fs
              /\ acc1 = (acc ++ [OsPath.join top compose_name])%list))).
Proof.
  unfold visit, scanned.
  destruct (depth root_path top <? max_depth)%Z eqn:D.
  - apply Z.ltb_lt in D.
    destruct (any_search re_search patterns top) as [[|]|e] eqn:S; simpl;
      [| | discriminate].
    + intros [= <- <-]. auto.
    + destruct (str_in compose_name fs) eqn:F; intros [= <- <-]; right;
        repeat split; auto.
      right. split; [now apply str_in_In | reflexivity].
  - intros [= <- <-]. auto.
Qed.

Lemma walk_found (d : dir) :
  forall top acc res,
    os_walk body top d acc = Ok res ->
    exists new, res = (acc ++ new)%list
                /\ forall r, In r new -> found_below seen top d r.
Proof.
  induction d as [n l fs subs IH] using dir_induction. intros top acc res H.
  rewrite os_walk_eq in H. destruct l.
  2: { injection H as <-. exists []. rewrite app_nil_r. split; [auto | intros ? []]. }
  destruct (body top (map dname subs) fs acc) as [[acc1 keep]|e] eqn:E;
    [| discriminate].
  apply visit_cases in E as [[-> ->] | (-> & Hseen & Hacc)].
  { injection H as <-. exists []. rewrite app_nil_r. split; [auto | intros ? []]. }
  assert (Hsubs : forall l a out,
             (forall s, In s l -> In s subs) ->
             walk_subs body top l a = Ok out ->
             exists new, out = (a ++ new)%list
                         /\ forall r, In r new ->
                                      found_below seen top (Dir n true fs subs) r).
  { clear H Hacc acc acc1 res.
    induction l as [|s l IHl]; intros a out Hin H.
    - injection H as <-. exists []. rewrite app_nil_r. split; [auto | intros ? []].
    - simpl in H.
      destruct (os_walk body (OsPath.join top (dname s)) s a) as [a'|e] eqn:W;
        [| discriminate].
      apply (IH s (Hin s (or_introl eq_refl))) in W as (new1 & -> & F1).
      apply IHl in H as (new2 & -> & F2); [| intros x Hx; apply Hin; now right].
      exists (new1 ++ new2)%list. split; [now rewrite app_assoc |].
      intros r Hr. apply in_app_or in Hr as [Hr | Hr]; [| auto].
      destruct (F1 r Hr) as (ns & e & Hd & Ha & Hf & ->).
      exists (dname s :: ns), e. repeat split; auto.
      + constructor; [apply Hin; now left | exact Hd].
      + now constructor. }
  apply Hsubs in H as (new & -> & F); [| auto].
  destruct Hacc as [-> | (Hf & ->)].
  - exists new. auto.
  - exists (OsPath.join top compose_name :: new). split.
    + now rewrite <- app_assoc.
    + intros r [<- | Hr]; [| auto].
      exists [], (Dir n true fs subs). repeat split; auto.
      * constructor.
      * now constructor.
Qed.

Lemma any_search_hit (pat : string) (p : string) :
  In pat patterns -> re_search pat p = Ok true ->
  any_search re_search patterns p <> Ok false.
Proof.
  induction patterns as [|q ps IH]; intros Hin Hm; [destruct Hin |].
  simpl. destruct Hin as [-> | Hin].
  - rewrite Hm. discriminate.
  - destruct (re_search q p) as [[|]|e]; try discriminate. now apply IH.
Qed.

(** A path of the result that lies below a directory of the tree went
    through that directory, which was therefore looked into. *)
Lemma found_through (fs : dir) (res : list string)
    (ns ms : list string) (d e : dir) (f : string) :
  proper_tree fs = true ->
  os_walk body root_path fs [] = Ok res ->
  descend fs ns d -> descend d ms e -> entry_name f = true ->
  In (OsPath.join (path_of root_path (ns ++ ms)) f) res ->
  seen (path_of root_path ns).
Proof.
  intros Hp Hw Hd He Hf Hin.
  apply walk_found in Hw as (new & -> & F). simpl in Hin.
  destruct (F _ Hin) as (ns0 & e0 & Hd0 & Ha & _ & E).
  pose proof (descend_names _ _ _ (descend_trans _ _ _ Hd _ _ He) Hp) as [N _].
  pose proof (descend_names _ _ _ Hd0 Hp) as [N0 _].
  apply PathFacts.entry_name_spec in Hf as [_ Hf].
  apply PathFacts.join_inj in E as [E _]; [| exact Hf | reflexivity].
  apply PathFacts.path_of_inj in E; [| assumption | assumption].
  rewrite <- E in Ha. now apply along_prefix in Ha.
Qed.

End ScanFacts.

(** ** PathScanner *)

Lemma along_last (S : string -> Prop) (top : string) (ns : list string) :
  along S top ns -> S (path_of top ns).
Proof.
  intros H. apply (along_prefix S ns []). now rewrite app_nil_r.
Qed.

(** C6. Whatever the tree, the root path, the depth bound and the exclusion
    patterns, every path the scan returns has at most [max_depth] separators
    after the root prefix. *)
Theorem found_paths_within_max_depth
    (re_search : string -> string -> result bool)
    (root_path : string) (max_depth : Z)
    (exclude_patterns : option (list string)) (fs : dir)
    (res : list string) (r : string) :
  find_docker_compose_files re_search root_path max_depth exclude_patterns fs
  = Ok res ->
  In r res ->
  (depth root_path r <= max_depth)%Z.
Proof.
  unfold find_docker_compose_files. intros H Hin.
  apply walk_found in H as (new & -> & F). simpl in Hin.
  destruct (F r Hin) as (ns & e & _ & Ha & _ & ->).
  apply along_last in Ha as [Hd _].
  pose proof (PathFacts.depth_join root_path (path_of root_path ns)
                compose_name eq_refl).
  lia.
Qed.

Lemma found_paths_within_max_depth_witness :
  find_docker_compose_files literal_search "." 2 (Some ["_bk"]) sample_tree
  = Ok ["./app/docker-compose.yml"]
  /\ (depth "." "./app/docker-compose.yml" <= 2)%Z.
Proof.
  split; [reflexivity |].
  apply (found_paths_within_max_depth literal_search "." 2 (Some ["_bk"])
           sample_tree ["./app/docker-compose.yml"]).
  - reflexivity.
  - simpl. left. reflexivity.
Defined.

(** C7. When some exclusion pattern matches the path of a directory of the
    tree, no file of that directory or of anything below it is in the result
    of a scan, and walking that directory leaves the list of found files as it
    was: nothing below it is visited. *)
Theorem excluded_subtree_not_scanned
    (re_search : string -> string -> result bool)
    (root_path : string) (max_depth : Z) (patterns : list string)
    (fs : dir) (res : list string) (ns : list string) (d : dir) (pat : string) :
  proper_tree fs = true ->
  find_docker_compose_files re_search root_path max_depth (Some patterns) fs
  = Ok res ->
  descend fs ns d ->
  In pat patterns ->
  re_search pat (path_of root_path ns) = Ok true ->
  (forall ms e f,
      descend d ms e -> In f (dfiles e) ->
      ~ In (OsPath.join (path_of root_path (ns ++ ms)) f) res)
  /\ (forall acc out,
         os_walk (visit re_search root_path max_depth patterns)
                 (path_of root_path ns) d acc = Ok out ->
         out = acc).
Proof.
  unfold find_docker_compose_files. simpl. intros Hp Hw Hd Hpat Hm. split.
  - intros ms e f He Hf Hin.
    pose proof (descend_names _ _ _ (descend_trans _ _ _ Hd _ _ He) Hp) as [_ Pe].
    pose proof (proper_files e f Pe Hf) as Nf.
    destruct (found_through re_search root_path max_depth patterns
                fs res ns ms d e f Hp Hw Hd He Nf Hin) as [_ S].
    exact (any_search_hit re_search patterns pat _ Hpat Hm S).
  - intros acc out H. destruct d as [n l files subs].
    rewrite os_walk_eq in H. destruct l; [| now injection H].
    destruct (visit re_search root_path max_depth patterns
                (path_of root_path ns) (map dname subs) files acc)
      as [[acc1 keep]|e] eqn:E; [| discriminate].
    apply visit_cases in E as [[-> ->] | (_ & [_ S] & _)].
    + now injection H.
    + destruct (any_search_hit re_search patterns pat _ Hpat Hm S).
Qed.

Lemma excluded_subtree_not_scanned_witness :
  (forall ms e f,
      descend sample_bk ms e -> In f (dfiles e) ->
      ~ In (OsPath.join (path_of "." (["app_bk"] ++ ms)) f)
           ["./app/docker-compose.yml"; "./app/db/docker-compose.yml"])
  /\ (forall acc out,
         os_walk (visit literal_search "." 3 ["_bk"])
                 (path_of "." ["app_bk"]) sample_bk acc = Ok out ->
         out = acc).
Proof.
  apply (excluded_subtree_not_scanned literal_search "." 3 ["_bk"] sample_tree
           ["./app/docker-compose.yml"; "./app/db/docker-compose.yml"]
           ["app_bk"] sample_bk "_bk").
  - reflexivity.
  - reflexivity.
  - apply (descend_down sample_tree sample_bk [] sample_bk).
    + simpl. right. left. reflexivity.
    + apply descend_here.
  - simpl. left. reflexivity.
  - reflexivity.
Defined.

(** C2, as the specification has it, fails: with bound 1, [./app] is at depth
    1 and holds a compose file, and the scan of the sample tree returns
    nothing. *)
Lemma max_depth_directory_is_skipped : ~ max_depth_directories_are_scanned.
Proof.
  intros H.
  specialize (H literal_search "." 1%Z sample_tree ["app"] sample_app []).
  assert (Hd : descend sample_tree ["app"] sample_app).
  { apply (descend_down sample_tree sample_app [] sample_app).
    - simpl. left. reflexivity.
    - apply descend_here. }
  specialize (H eq_refl Hd eq_refl (or_introl eq_refl) eq_refl).
  destruct H.
Qed.

(** C2, amended. A directory whose depth is exactly [max_depth] is not looked
    into: no file of it or of anything below it is in the result, and walking
    it leaves the list of found files as it was, its children not being
    descended into. *)
Theorem max_depth_directory_not_scanned
    (re_search : string -> string -> result bool)
    (root_path : string) (max_depth : Z)
    (exclude_patterns : option (list string))
    (fs : dir) (res : list string) (ns : list string) (d : dir) :
  proper_tree fs = true ->
  find_docker_compose_files re_search root_path max_depth exclude_patterns fs
  = Ok res ->
  descend fs ns d ->
  depth root_path (path_of root_path ns) = max_depth ->
  (forall ms e f,
      descend d ms e -> In f (dfiles e) ->
      ~ In (OsPath.join (path_of root_path (ns ++ ms)) f) res)
  /\ (forall acc,
         os_walk (visit re_search root_path max_depth (or_empty exclude_patterns))
                 (path_of root_path ns) d acc = Ok acc).
Proof.
  unfold find_docker_compose_files. intros Hp Hw Hd Hdepth. split.
  - intros ms e f He Hf Hin.
    pose proof (descend_names _ _ _ (descend_trans _ _ _ Hd _ _ He) Hp) as [_ Pe].
    pose proof (proper_files e f Pe Hf) as Nf.
    destruct (found_through re_search root_path max_depth
                (or_empty exclude_patterns)
                fs res ns ms d e f Hp Hw Hd He Nf Hin) as [S _].
    lia.
  - intros acc. destruct d as [n l files subs].
    rewrite os_walk_eq. destruct l; [| reflexivity].
    unfold visit. rewrite Hdepth, Z.ltb_irrefl. reflexivity.
Qed.

Lemma max_depth_directory_not_scanned_witness :
  (forall ms e f,
      descend sample_db ms e -> In f (dfiles e) ->
      ~ In (OsPath.join (path_of "." (["app"; "db"] ++ ms)) f)
           ["./app/docker-compose.yml"])
  /\ (forall acc,
         os_walk (visit literal_search "." 2 (or_empty (Some ["_bk"])))
                 (path_of "." ["app"; "db"]) sample_db acc = Ok acc).
Proof.
  apply (max_depth_directory_not_scanned literal_search "." 2 (Some ["_bk"])
           sample_tree ["./app/docker-compose.yml"] ["app"; "db"] sample_db).
  - reflexivity.
  - reflexivity.
  - apply (descend_down sample_tree sample_app ["db"] sample_db).
    + simpl. left. reflexivity.
    + apply (descend_down sample_app sample_db [] sample_db).
      * simpl. left. reflexivity.
      * apply descend_here.
  - reflexivity.
Defined.

(** ** PortReconciler *)

Lemma bound_ports_spec (running_ports : list (string * list string)) (p : string) :
  str_in p (bound_ports running_ports) = true <-> bound_by_some running_ports p.
Proof.
  rewrite str_in_In. unfold bound_ports, bound_by_some. rewrite in_flat_map.
  split.
  - intros [[c ps] [H1 H2]]. exists c, ps. auto.
  - intros (c & ps & H1 & H2). exists (c, ps). auto.
Qed.

Lemma unused_ports_In (ports : list string)
    (running_ports : list (string * list string)) (p : string) :
  In p (unused_ports ports running_ports)
  <-> In p ports /\ ~ bound_by_some running_ports p.
Proof.
  unfold unused_ports. rewrite filter_In, negb_true_iff.
  rewrite <- bound_ports_spec.
  destruct (str_in p (bound_ports running_ports)); intuition congruence.
Qed.

Lemma unused_ports_count (ports : list string)
    (running_ports : list (string * list string)) (p : string) :
  ~ bound_by_some running_ports p ->
  count_occ string_dec (unused_ports ports running_ports) p
  = count_occ string_dec ports p.
Proof.
  intros H. rewrite <- bound_ports_spec in H. unfold unused_ports.
  induction ports as [|q ports IH]; [reflexivity |].
  simpl. destruct (string_dec q p) as [-> | N].
  - destruct (str_in p (bound_ports running_ports)); [congruence |].
    simpl. destruct (string_dec p p); [now rewrite IH | congruence].
  - destruct (str_in q (bound_ports running_ports)); simpl; [exact IH |].
    destruct (string_dec q p); [congruence | exact IH].
Qed.

Lemma filter_subseq {A : Type} (f : A -> bool) (l : list A) : subseq (filter f l) l.
Proof.
  induction l as [|x l IH]; simpl; [constructor |].
  destruct (f x); now constructor.
Qed.

Lemma is_empty_spec {A : Type} (l : list A) : is_empty l = true <-> l = [].
Proof. destruct l; simpl; split; congruence. Qed.

Lemma unused_service_lines_In (services : list (string * list string))
    (running_ports : list (string * list string)) (l : line) :
  In l (unused_service_lines services running_ports)
  <-> exists service ports,
        In (service, ports) services
        /\ unused_ports ports running_ports <> []
        /\ l = ServiceLine service (unused_ports ports running_ports).
Proof.
  unfold unused_service_lines. rewrite in_flat_map. split.
  - intros [[service ports] [H1 H2]].
    destruct (unused_ports ports running_ports) as [|u us] eqn:E; simpl in H2.
    + destruct H2.
    + destruct H2 as [<- | []]. exists service, ports. rewrite E.
      repeat split; [exact H1 | discriminate].
  - intros (service & ports & H1 & H2 & ->). exists (service, ports).
    split; [exact H1 |].
    destruct (unused_ports ports running_ports); simpl; [congruence | auto].
Qed.

Lemma unused_section_In
    (compose_ports : list (string * list (string * list string)))
    (running_ports : list (string * list string)) (l : line) :
  In l (unused_section compose_ports running_ports)
  <-> exists file_path services,
        In (file_path, services) compose_ports
        /\ (l = FileLine file_path
            \/ exists service ports,
                 In (service, ports) services
                 /\ unused_ports ports running_ports <> []
                 /\ l = ServiceLine service (unused_ports ports running_ports)).
Proof.
  unfold unused_section. rewrite in_flat_map. split.
  - intros [[file_path services] [H1 [<- | H2]]];
      exists file_path, services; split; auto.
    right. now apply unused_service_lines_In.
  - intros (file_path & services & H1 & [-> | H2]);
      exists (file_path, services); split; auto; simpl; [now left |].
    right. now apply unused_service_lines_In.
Qed.

(** C1. The unused ports of a service are exactly its declared ports that no
    running container binds: same members, same multiplicities (nothing is
    deduplicated), declaration order kept; and the unused section prints, for
    each file of the index, its header and one line per service whose unused
    list is not empty, none for a service whose unused list is empty. *)
Theorem unused_ports_are_declared_minus_bound :
  (forall ports running_ports,
      (forall p, In p (unused_ports ports running_ports)
                 <-> In p ports /\ ~ bound_by_some running_ports p)
      /\ (forall p, ~ bound_by_some running_ports p ->
                    count_occ string_dec (unused_ports ports running_ports) p
                    = count_occ string_dec ports p)
      /\ subseq (unused_ports ports running_ports) ports)
  /\ (forall compose_ports running_ports l,
         In l (unused_section compose_ports running_ports)
         <-> exists file_path services,
               In (file_path, services) compose_ports
               /\ (l = FileLine file_path
                   \/ exists service ports,
                        In (service, ports) services
                        /\ unused_ports ports running_ports <> []
                        /\ l = ServiceLine service
                                 (unused_ports ports running_ports)))
  /\ unused_ports ["8080"; "9090"] [("web_1", ["8080"])] = ["9090"].
Proof.
  split; [| split; [| reflexivity]].
  - intros ports running_ports. split; [| split].
    + intros p. apply unused_ports_In.
    + intros p. apply unused_ports_count.
    + apply filter_subseq.
  - intros. apply unused_section_In.
Qed.

Lemma unused_ports_nil_running (ports : list string) : unused_ports ports [] = ports.
Proof.
  unfold unused_ports. simpl. induction ports as [|p ports IH]; simpl; congruence.
Qed.

(** C8. With no running container, the unused ports of every service are its
    declared ports, unchanged, and the unused section prints every service
    that declares at least one port with its full list. *)
Theorem no_running_container_all_unused :
  (forall ports, unused_ports ports [] = ports)
  /\ (forall compose_ports service ports,
         In (ServiceLine service ports) (unused_section compose_ports [])
         <-> exists file_path services,
               In (file_path, services) compose_ports
               /\ In (service, ports) services /\ ports <> []).
Proof.
  split; [apply unused_ports_nil_running |].
  intros compose_ports service ports. rewrite unused_section_In. split.
  - intros (file_path & services & H1 & [H2 | (sv & ps & H2 & H3 & H4)]);
      [discriminate |].
    rewrite unused_ports_nil_running in H3, H4. injection H4 as -> ->.
    exists file_path, services. auto.
  - intros (file_path & services & H1 & H2 & H3).
    exists file_path, services. split; [exact H1 | right].
    exists service, ports. rewrite unused_ports_nil_running. auto.
Qed.

(** ** ComposeSpecReader *)

Lemma split_first (c : ascii) (h rest : string) :
  count_char c h = 0 ->
  exists tl, split c (h ++ String c rest) = h :: tl.
Proof.
  induction h as [|a h IH]; simpl; intros H.
  - rewrite Ascii.eqb_refl. eauto.
  - destruct (Ascii.eqb a c); [discriminate |].
    destruct (IH H) as [tl ->]. eauto.
Qed.

Lemma split_whole (c : ascii) (s : string) :
  count_char c s = 0 -> split c s = [s].
Proof.
  induction s as [|a s IH]; simpl; intros H; [reflexivity |].
  destruct (Ascii.eqb a c); [discriminate |]. now rewrite (IH H).
Qed.

(** The first colon-delimited segment of a token is what is kept: the whole
    token when it has no colon. *)
Lemma host_segment_first (h rest : string) :
  count_char ":"%char h = 0 ->
  host_segment (PStr (h ++ String ":"%char rest)) = Ok h.
Proof.
  intros H. unfold host_segment.
  destruct (split_first ":"%char h rest H) as [tl ->]. reflexivity.
Qed.

Lemma host_segment_bare (s : string) :
  count_char ":"%char s = 0 -> host_segment (PStr s) = Ok s.
Proof. intros H. unfold host_segment. now rewrite split_whole. Qed.

(** C3, where the program departs from it: for a token with a bind address
    the segment kept is the address, not the host port; a compose document
    that publishes [127.0.0.1:9090:90] is indexed under ["127.0.0.1"], which
    no running container's host port can equal. *)
Theorem host_segment_of_bind_address_is_the_address :
  host_segment (PStr "127.0.0.1:8080:80") = Ok "127.0.0.1"
  /\ host_segment (PStr "8080:80") = Ok "8080"
  /\ host_segment (PStr "8080:80/tcp") = Ok "8080"
  /\ host_segment (PStr "8080") = Ok "8080"
  /\ fst (get_ports_from_docker_compose sample_load ["a/docker-compose.yml"])
     = [("a/docker-compose.yml", [("web", ["8080"; "127.0.0.1"])])]
  /\ unused_ports ["8080"; "127.0.0.1"] [("web_1", ["8080"; "9090"])]
     = ["127.0.0.1"].
Proof. repeat split. Qed.

Lemma dict_set_In {V : Type} (k : string) (v : V) (d : list (string * V))
    (k' : string) (v' : V) :
  In (k', v') (dict_set k v d) -> (k' = k /\ v' = v) \/ In (k', v') d.
Proof.
  induction d as [|[k0 v0] d IH]; simpl.
  - intros [[= <- <-] | []]. auto.
  - destruct (String.eqb k k0).
    + intros [[= <- <-] | H]; auto.
    + intros [H | H]; auto. destruct (IH H); auto.
Qed.

Lemma dict_set_keys {V : Type} (k : string) (v : V) (d : list (string * V))
    (k' : string) :
  In k' (dict_keys (dict_set k v d)) <-> k' = k \/ In k' (dict_keys d).
Proof.
  unfold dict_keys. induction d as [|[k0 v0] d IH]; simpl.
  - intuition.
  - destruct (String.eqb_spec k k0) as [-> | N]; simpl.
    + intuition.
    + rewrite IH. intuition.
Qed.

Lemma service_step_keys (service_name : string) (service_data : pyval)
    (file_ports file_ports' : list (string * list string)) (name : string) :
  service_step service_name service_data file_ports = Ok file_ports' ->
  In name (dict_keys file_ports')
  <-> In name (dict_keys file_ports)
      \/ (name = service_name /\ has_ports service_data = Ok true).
Proof.
  unfold service_step.
  destruct (has_ports service_data) as [[|]|e]; simpl; [| | discriminate].
  - destruct (get_ports_field service_data) as [field|e]; simpl; [| discriminate].
    destruct (iterate field) as [entries|e]; simpl; [| discriminate].
    destruct (map_result host_segment entries) as [hosts|e]; simpl;
      [| discriminate].
    intros [= <-]. rewrite dict_set_keys. intuition.
  - intros [= <-]. intuition congruence.
Qed.

Lemma services_loop_keys (l : list (string * pyval)) :
  forall file_ports file_ports' name,
    services_loop l file_ports = Ok file_ports' ->
    In name (dict_keys file_ports')
    <-> In name (dict_keys file_ports)
        \/ exists data, In (name, data) l /\ has_ports data = Ok true.
Proof.
  induction l as [|[sn sd] l IH]; intros file_ports file_ports' name H; simpl in H.
  - injection H as <-. split; [auto | intros [H | (d & [] & _)]; exact H].
  - destruct (service_step sn sd file_ports) as [fp1|e] eqn:E; simpl in H;
      [| discriminate].
    rewrite (IH _ _ name H), (service_step_keys _ _ _ _ name E). split.
    + intros [[H1 | [-> H1]] | (d & H1 & H2)]; auto.
      * right. exists sd. split; [now left | exact H1].
      * right. exists d. split; [now right | exact H2].
    + intros [H1 | (d & [[= -> ->] | H1] & H2)]; auto.
      right. eauto.
Qed.

Section ReaderFacts.

Variable load : string -> result pyval.

Lemma get_ports_loop_entries (files : list string) :
  forall ports diagnostics f fp,
    In (f, fp) (fst (get_ports_loop load files ports diagnostics)) ->
    In (f, fp) ports
    \/ (In f files /\ read_file_ports load f = Ok fp /\ fp <> []).
Proof.
  induction files as [|file_path files IH]; intros ports diagnostics f fp H;
    simpl in H; [auto |].
  destruct (read_file_ports load file_path) as [file_ports|e] eqn:E.
  - destruct file_ports as [|x file_ports]; simpl in H.
    + destruct (IH _ _ _ _ H) as [H1 | (H1 & H2 & H3)]; [auto |].
      right. repeat split; auto. now right.
    + destruct (IH _ _ _ _ H) as [H1 | (H1 & H2 & H3)].
      * apply dict_set_In in H1 as [[-> ->] | H1]; [| auto].
        right. repeat split; [now left | exact E | discriminate].
      * right. repeat split; auto. now right.
  - destruct (IH _ _ _ _ H) as [H1 | (H1 & H2 & H3)]; [auto |].
    right. repeat split; auto. now right.
Qed.

Lemma get_ports_loop_diagnostics (files : list string) :
  forall ports diagnostics f e,
    In (f, e) (snd (get_ports_loop load files ports diagnostics))
    <-> In (f, e) diagnostics
        \/ (In f files /\ read_file_ports load f = Raise e).
Proof.
  induction files as [|file_path files IH]; intros ports diagnostics f e; simpl.
  - intuition.
  - destruct (read_file_ports load file_path) as [file_ports|e0] eqn:E.
    + destruct (is_empty file_ports); rewrite IH; split;
        (intros [H | (H1 & H2)]; [auto | right]); intuition congruence.
    + rewrite IH, in_app_iff. simpl. split.
      * intros [[H | [[= <- <-] | []]] | (H1 & H2)]; auto.
      * intros [H | ([<- | H1] & H2)]; auto.
        left. right. left. congruence.
Qed.

End ReaderFacts.

(** C10. Whatever the loader does, every entry of the returned index belongs
    to an input file whose processing went through to the end, and holds the
    whole, non-empty map computed for it: each of its services that has a
    [ports] field is in it; an input file whose processing raised, at any
    point, has no entry and one diagnostic. *)
Theorem port_extraction_is_atomic_per_file
    (load : string -> result pyval) (files : list string) :
  (forall f fp,
      In (f, fp) (fst (get_ports_from_docker_compose load files)) ->
      In f files /\ read_file_ports load f = Ok fp /\ fp <> []
      /\ forall doc services l name data,
           load f = Ok doc -> get_services doc = Ok services ->
           items services = Ok l ->
           In (name, data) l -> has_ports data = Ok true ->
           In name (dict_keys fp))
  /\ (forall f e,
         read_file_ports load f = Raise e ->
         (forall fp, ~ In (f, fp) (fst (get_ports_from_docker_compose load files)))
         /\ (In f files ->
             In (f, e) (snd (get_ports_from_docker_compose load files))))
  /\ (forall f,
         In f (dict_keys (fst (get_ports_from_docker_compose load files))) ->
         In f files).
Proof.
  unfold get_ports_from_docker_compose. split; [| split].
  - intros f fp H.
    apply get_ports_loop_entries in H as [[] | (H1 & H2 & H3)].
    repeat split; auto.
    intros doc services l name data L S I Hin Hp.
    unfold read_file_ports in H2. rewrite L in H2. simpl in H2.
    rewrite S in H2. simpl in H2. rewrite I in H2. simpl in H2.
    apply (services_loop_keys l [] fp name H2). right. eauto.
  - intros f e R. split.
    + intros fp H.
      apply get_ports_loop_entries in H as [[] | (_ & H2 & _)]. congruence.
    + intros Hin. apply get_ports_loop_diagnostics. right. auto.
  - intros f H. unfold dict_keys in H. apply in_map_iff in H as [[k fp] [<- H]].
    apply get_ports_loop_entries in H as [[] | (H1 & _)]. exact H1.
Qed.

(** The second sample document fails on its second service, after the first
    one has been read: the file gets no entry, not a partial one. *)
Example failing_file_leaves_no_entry :
  get_ports_from_docker_compose sample_load
    ["b/docker-compose.yml"; "missing/docker-compose.yml";
     "a/docker-compose.yml"]
  = ([("a/docker-compose.yml", [("web", ["8080"; "127.0.0.1"])])],
     [("b/docker-compose.yml", AttributeError);
      ("missing/docker-compose.yml", OSError)]).
Proof. reflexivity. Qed.

(** ** ActionDispatcher *)

Section DispatcherFacts.

Variable World : Type.
Variable subprocess_run : World -> list string -> World * outcome.

Local Abbreviation prompt := (prompt_user_action World subprocess_run).
Local Abbreviation run_all := (execute_all World subprocess_run).
Local Abbreviation run_one := (execute_docker_compose_command World subprocess_run).

Lemma emit_emit {A : Type} (e1 e2 : list event) (r : A * list event * World) :
  emit World e1 (emit World e2 r) = emit World (e1 ++ e2) r.
Proof. destruct r as [[a t] w]. simpl. now rewrite app_assoc. Qed.

Lemma prompt_bulk_invalid (files : list string) (line1 line2 : string)
    (rest : list string) (w : World) :
  str_in (strip line1) ["0"; ""] = false ->
  String.eqb (lower (strip line1)) "a" = true ->
  str_in (lower (strip line2)) actions = false ->
  prompt files (line1 :: line2 :: rest) w
  = emit World [ShowMenu files; AskChoice; AskBulkAction; InvalidAction]
      (prompt files rest w).
Proof.
  intros H1 H2 H3. cbn [prompt_user_action]. rewrite H1, H2, H3.
  now rewrite !emit_emit.
Qed.

Lemma prompt_single_invalid (files : list string) (line1 line2 : string)
    (rest : list string) (w : World) (file_path : string) :
  str_in (strip line1) ["0"; ""] = false ->
  String.eqb (lower (strip line1)) "a" = false ->
  (n <- int (strip line1) ;; py_getitem files (n - 1)%Z) = Ok file_path ->
  str_in (lower (strip line2)) actions = false ->
  prompt files (line1 :: line2 :: rest) w
  = emit World [ShowMenu files; AskChoice; AskAction; InvalidAction]
      (prompt files rest w).
Proof.
  intros H1 H2 H3 H4. cbn [prompt_user_action]. rewrite H1, H2, H3, H4.
  now rewrite !emit_emit.
Qed.

(** A selection that is neither numeric nor a recognised token, or whose
    index falls outside the list on either side, is refused and asked
    again. *)
Lemma prompt_refused_choice (files : list string) (line1 : string)
    (rest : list string) (w : World) :
  str_in (strip line1) ["0"; ""] = false ->
  String.eqb (lower (strip line1)) "a" = false ->
  (n <- int (strip line1) ;; py_getitem files (n - 1)%Z) = Raise ValueError
  \/ (n <- int (strip line1) ;; py_getitem files (n - 1)%Z) = Raise IndexError ->
  prompt files (line1 :: rest) w
  = emit World [ShowMenu files; AskChoice; InvalidChoice] (prompt files rest w).
Proof.
  intros H1 H2 [H3 | H3]; cbn [prompt_user_action]; rewrite H1, H2, H3;
    now rewrite !emit_emit.
Qed.

Lemma execute_all_exits (files : list string) (action : string) :
  (forall w argv, exists status, snd (subprocess_run w argv) = Exit status) ->
  forall w, exists evs w',
      run_all files action w = (None, evs, w')
      /\ attempts evs = map (fun f => (f, action)) files
      /\ reports evs = map (fun f => (f, action)) files.
Proof.
  intros Hexit. induction files as [|f files IH]; intros w.
  - exists [], w. auto.
  - cbn [execute_all]. unfold execute_docker_compose_command.
    destruct (Hexit w ["docker-compose"; "-f"; f; action]) as [status Hs].
    destruct (subprocess_run w ["docker-compose"; "-f"; f; action]) as [w1 o].
    simpl in Hs. subst o.
    destruct (IH w1) as (evs & w' & He & Ha & Hr).
    destruct (status =? 0)%Z; cbn [emit]; rewrite He; simpl; do 2 eexists;
      (split; [reflexivity |]); simpl; rewrite Ha, Hr; auto.
Qed.

End DispatcherFacts.

Lemma py_getitem_negative {A : Type} (l : list A) (i : Z) :
  (- Z.of_nat (List.length l) <= i < 0)%Z -> exists x, py_getitem l i = Ok x.
Proof.
  intros H. unfold py_getitem.
  destruct (i <? 0)%Z eqn:N; [| apply Z.ltb_ge in N; lia].
  destruct ((i + Z.of_nat (List.length l) <? 0)
            || (Z.of_nat (List.length l) <=? i + Z.of_nat (List.length l)))%Z eqn:B.
  - apply orb_true_iff in B as [B | B];
      [apply Z.ltb_lt in B | apply Z.leb_le in B]; lia.
  - destruct (nth_error l (Z.to_nat (i + Z.of_nat (List.length l)))) eqn:E;
      [eauto |].
    apply nth_error_None in E. lia.
Qed.

(** C4, as the specification has it, fails: with one file, the inputs [1],
    [bogus], [start], [0] run nothing; [start] is read as a selection. *)
Lemma invalid_action_loses_selection : ~ invalid_action_keeps_selection.
Proof.
  intros H.
  specialize (H unit always_succeeds ["app/docker-compose.yml"] tt
                "1" "bogus" "start" ["0"] "app/docker-compose.yml"
                eq_refl eq_refl eq_refl eq_refl eq_refl).
  vm_compute in H. intuition discriminate.
Qed.

(** C4, amended. After a selection (one file or bulk), an action token that is
    not start, stop or restart, case-insensitively after trimming, runs
    nothing: the invalid-action message is shown and the dispatcher is back at
    its selection prompt, file list shown again, with the remaining input and
    the world as they were; the selection is not kept. *)
Theorem invalid_action_returns_to_selection
    (World : Type) (subprocess_run : World -> list string -> World * outcome)
    (files : list string) (line1 line2 : string) (rest : list string)
    (w : World) :
  str_in (strip line1) ["0"; ""] = false ->
  str_in (lower (strip line2)) actions = false ->
  (String.eqb (lower (strip line1)) "a" = true ->
   prompt_user_action World subprocess_run files (line1 :: line2 :: rest) w
   = emit World [ShowMenu files; AskChoice; AskBulkAction; InvalidAction]
       (prompt_user_action World subprocess_run files rest w))
  /\ (forall file_path,
         String.eqb (lower (strip line1)) "a" = false ->
         (n <- int (strip line1) ;; py_getitem files (n - 1)%Z) = Ok file_path ->
         prompt_user_action World subprocess_run files (line1 :: line2 :: rest) w
         = emit World [ShowMenu files; AskChoice; AskAction; InvalidAction]
             (prompt_user_action World subprocess_run files rest w)).
Proof.
  intros H1 H2. split.
  - intros Ha. now apply prompt_bulk_invalid.
  - intros file_path Ha Hs. now apply (prompt_single_invalid _ _ _ _ _ _ _ file_path).
Qed.

Lemma invalid_action_returns_to_selection_witness :
  (String.eqb (lower (strip "1")) "a" = true ->
   prompt_user_action unit always_succeeds ["app/docker-compose.yml"]
     ["1"; "bogus"; "start"; "0"] tt
   = emit unit [ShowMenu ["app/docker-compose.yml"]; AskChoice; AskBulkAction;
                InvalidAction]
       (prompt_user_action unit always_succeeds ["app/docker-compose.yml"]
          ["start"; "0"] tt))
  /\ (forall file_path,
         String.eqb (lower (strip "1")) "a" = false ->
         (n <- int (strip "1") ;;
          py_getitem ["app/docker-compose.yml"] (n - 1)%Z) = Ok file_path ->
         prompt_user_action unit always_succeeds ["app/docker-compose.yml"]
           ["1"; "bogus"; "start"; "0"] tt
         = emit unit [ShowMenu ["app/docker-compose.yml"]; AskChoice; AskAction;
                      InvalidAction]
             (prompt_user_action unit always_succeeds ["app/docker-compose.yml"]
                ["start"; "0"] tt)).
Proof.
  apply (invalid_action_returns_to_selection unit always_succeeds
           ["app/docker-compose.yml"] "1" "bogus" ["start"; "0"] tt).
  - reflexivity.
  - reflexivity.
Defined.

(** C5, where the program departs from it: a selection of [-1] is not a
    1-based index into a list of two files, yet Python's negative indexing
    resolves it to the first file, the action is asked for and the command is
    run. *)
Theorem negative_selection_runs_a_command :
  prompt_user_action unit always_succeeds
    ["a/docker-compose.yml"; "b/docker-compose.yml"] ["-1"; "start"; "0"] tt
  = (Exited,
     [ShowMenu ["a/docker-compose.yml"; "b/docker-compose.yml"]; AskChoice;
      AskAction;
      Run ["docker-compose"; "-f"; "a/docker-compose.yml"; "start"];
      Completed "a/docker-compose.yml" "start";
      ShowMenu ["a/docker-compose.yml"; "b/docker-compose.yml"]; AskChoice],
     tt).
Proof. reflexivity. Qed.

Lemma bulk_outcomes_files {World : Type}
    (subprocess_run : World -> list string -> World * outcome)
    (files : list string) (action : string) :
  forall w, map fst (fst (bulk_outcomes subprocess_run files action w)) = files.
Proof.
  induction files as [|f files IH]; intros w; [reflexivity |].
  cbn [bulk_outcomes].
  destruct (subprocess_run w ["docker-compose"; "-f"; f; action]) as [w1 o].
  specialize (IH w1).
  destruct (bulk_outcomes subprocess_run files action w1) as [os w2].
  simpl in *. now rewrite IH.
Qed.

Lemma execute_all_outcomes {World : Type}
    (subprocess_run : World -> list string -> World * outcome)
    (files : list string) (action : string) :
  (forall w argv, exists status, snd (subprocess_run w argv) = Exit status) ->
  forall w,
    execute_all World subprocess_run files action w
    = (None,
       flat_map (report_of action)
                (fst (bulk_outcomes subprocess_run files action w)),
       snd (bulk_outcomes subprocess_run files action w)).
Proof.
  intros Hexit. induction files as [|f files IH]; intros w; [reflexivity |].
  cbn [execute_all bulk_outcomes]. unfold execute_docker_compose_command.
  destruct (Hexit w ["docker-compose"; "-f"; f; action]) as [status Hs].
  destruct (subprocess_run w ["docker-compose"; "-f"; f; action]) as [w1 o].
  simpl in Hs. subst o. specialize (IH w1).
  destruct (bulk_outcomes subprocess_run files action w1) as [os w2].
  simpl in IH.
  destruct (status =? 0)%Z eqn:Z0; cbn [emit]; rewrite IH; simpl;
    rewrite Z0; reflexivity.
Qed.

Lemma bulk_failures_reported (action : string) (os : list (string * outcome))
    (f : string) (status : Z) :
  In (f, Exit status) os ->
  (status <> 0%Z -> In (Failed f action) (flat_map (report_of action) os))
  /\ (status = 0%Z -> In (Completed f action) (flat_map (report_of action) os)).
Proof.
  intros H. split; intros Hs; apply in_flat_map; exists (f, Exit status);
    (split; [exact H |]); simpl; right; left.
  - destruct (Z.eqb_spec status 0); [contradiction | reflexivity].
  - now rewrite Hs.
Qed.

(** C9. In bulk mode, when the command runs and exits with some status for
    every file, the dispatcher does what [bulk_outcomes] says: the action is
    run on every discovered file in discovery order, each run from the world
    the previous one left; what is shown is, file by file, the run followed by
    the failure report when the exit status is not 0 and by the success report
    when it is 0; a failure for one file stops nothing, the remaining files
    are run and the dispatcher goes on to its next selection. *)
Theorem bulk_runs_action_on_every_file
    (World : Type) (subprocess_run : World -> list string -> World * outcome)
    (files : list string) (line1 line2 : string) (rest : list string)
    (w : World) :
  (forall w argv, exists status, snd (subprocess_run w argv) = Exit status) ->
  str_in (strip line1) ["0"; ""] = false ->
  String.eqb (lower (strip line1)) "a" = true ->
  str_in (lower (strip line2)) actions = true ->
  map fst (fst (bulk_outcomes subprocess_run files (lower (strip line2)) w))
  = files
  /\ execute_all World subprocess_run files (lower (strip line2)) w
     = (None,
        flat_map (report_of (lower (strip line2)))
                 (fst (bulk_outcomes subprocess_run files (lower (strip line2)) w)),
        snd (bulk_outcomes subprocess_run files (lower (strip line2)) w))
  /\ (forall f status,
         In (f, Exit status)
            (fst (bulk_outcomes subprocess_run files (lower (strip line2)) w)) ->
         (status <> 0%Z ->
          In (Failed f (lower (strip line2)))
             (trace (prompt_user_action World subprocess_run files
                       (line1 :: line2 :: rest) w)))
         /\ (status = 0%Z ->
             In (Completed f (lower (strip line2)))
                (trace (prompt_user_action World subprocess_run files
                          (line1 :: line2 :: rest) w))))
  /\ attempts
       (flat_map (report_of (lower (strip line2)))
                 (fst (bulk_outcomes subprocess_run files (lower (strip line2)) w)))
     = map (fun f => (f, lower (strip line2))) files
  /\ reports
       (flat_map (report_of (lower (strip line2)))
                 (fst (bulk_outcomes subprocess_run files (lower (strip line2)) w)))
     = map (fun f => (f, lower (strip line2))) files
  /\ prompt_user_action World subprocess_run files (line1 :: line2 :: rest) w
     = emit World
         ([ShowMenu files; AskChoice; AskBulkAction]
          ++ flat_map (report_of (lower (strip line2)))
               (fst (bulk_outcomes subprocess_run files (lower (strip line2)) w)))
         (prompt_user_action World subprocess_run files rest
            (snd (bulk_outcomes subprocess_run files (lower (strip line2)) w))).
Proof.
  intros Hexit H1 H2 H3.
  pose proof (execute_all_outcomes subprocess_run files (lower (strip line2))
                Hexit w) as He.
  assert (Hp : prompt_user_action World subprocess_run files
                 (line1 :: line2 :: rest) w
               = emit World
                   ([ShowMenu files; AskChoice; AskBulkAction]
                    ++ flat_map (report_of (lower (strip line2)))
                         (fst (bulk_outcomes subprocess_run files
                                 (lower (strip line2)) w)))
                   (prompt_user_action World subprocess_run files rest
                      (snd (bulk_outcomes subprocess_run files
                              (lower (strip line2)) w)))).
  { cbn [prompt_user_action]. rewrite H1, H2, H3, He. now rewrite !emit_emit. }
  destruct (execute_all_exits World subprocess_run files (lower (strip line2))
              Hexit w) as (evs & w' & He' & Ha & Hr).
  rewrite He in He'. injection He' as <- <-.
  split; [apply bulk_outcomes_files |]. split; [exact He |].
  split; [| split; [exact Ha | split; [exact Hr | exact Hp]]].
  intros f status Hin.
  destruct (bulk_failures_reported (lower (strip line2)) _ f status Hin)
    as [Hf Hc].
  rewrite Hp.
  destruct (prompt_user_action World subprocess_run files rest
              (snd (bulk_outcomes subprocess_run files (lower (strip line2)) w)))
    as [[a t] w2].
  unfold trace. simpl.
  split; intros Hs; right; right; right; apply in_or_app; left; auto.
Qed.

Lemma bulk_runs_action_on_every_file_witness :
  map fst (fst (bulk_outcomes second_fails ["f1"; "f2"; "f3"]
                  (lower (strip "Start")) 0))
  = ["f1"; "f2"; "f3"]
  /\ execute_all nat second_fails ["f1"; "f2"; "f3"] (lower (strip "Start")) 0
     = (None,
        flat_map (report_of (lower (strip "Start")))
                 (fst (bulk_outcomes second_fails ["f1"; "f2"; "f3"]
                         (lower (strip "Start")) 0)),
        snd (bulk_outcomes second_fails ["f1"; "f2"; "f3"]
               (lower (strip "Start")) 0))
  /\ (forall f status,
         In (f, Exit status)
            (fst (bulk_outcomes second_fails ["f1"; "f2"; "f3"]
                    (lower (strip "Start")) 0)) ->
         (status <> 0%Z ->
          In (Failed f (lower (strip "Start")))
             (trace (prompt_user_action nat second_fails ["f1"; "f2"; "f3"]
                       [" A "; "Start"; "0"] 0)))
         /\ (status = 0%Z ->
             In (Completed f (lower (strip "Start")))
                (trace (prompt_user_action nat second_fails ["f1"; "f2"; "f3"]
                          [" A "; "Start"; "0"] 0))))
  /\ attempts
       (flat_map (report_of (lower (strip "Start")))
                 (fst (bulk_outcomes second_fails ["f1"; "f2"; "f3"]
                         (lower (strip "Start")) 0)))
     = map (fun f => (f, lower (strip "Start"))) ["f1"; "f2"; "f3"]
  /\ reports
       (flat_map (report_of (lower (strip "Start")))
                 (fst (bulk_outcomes second_fails ["f1"; "f2"; "f3"]
                         (lower (strip "Start")) 0)))
     = map (fun f => (f, lower (strip "Start"))) ["f1"; "f2"; "f3"]
  /\ prompt_user_action nat second_fails ["f1"; "f2"; "f3"]
       [" A "; "Start"; "0"] 0
     = emit nat
         ([ShowMenu ["f1"; "f2"; "f3"]; AskChoice; AskBulkAction]
          ++ flat_map (report_of (lower (strip "Start")))
               (fst (bulk_outcomes second_fails ["f1"; "f2"; "f3"]
                       (lower (strip "Start")) 0)))
         (prompt_user_action nat second_fails ["f1"; "f2"; "f3"] ["0"]
            (snd (bulk_outcomes second_fails ["f1"; "f2"; "f3"]
                    (lower (strip "Start")) 0))).
Proof.
  apply (bulk_runs_action_on_every_file nat second_fails ["f1"; "f2"; "f3"]
           " A " "Start" ["0"] 0).
  - intros w argv. unfold second_fails. simpl.
    destruct (Nat.eqb w 1); eexists; reflexivity.
  - reflexivity.
  - reflexivity.
  - reflexivity.
Defined.

(** What the sample run of the witness amounts to: the second command exits
    with status 1 and is reported as failed, between two successes. *)
Example bulk_sample_outcomes :
  fst (bulk_outcomes second_fails ["f1"; "f2"; "f3"] "start" 0)
  = [("f1", Exit 0); ("f2", Exit 1); ("f3", Exit 0)]
  /\ flat_map (report_of "start")
       (fst (bulk_outcomes second_fails ["f1"; "f2"; "f3"] "start" 0))
     = [Run ["docker-compose"; "-f"; "f1"; "start"]; Completed "f1" "start";
        Run ["docker-compose"; "-f"; "f2"; "start"]; Failed "f2" "start";
        Run ["docker-compose"; "-f"; "f3"; "start"]; Completed "f3" "start"].
Proof. split; reflexivity. Qed.

(** Three files, the second command exits with status 1: the third is still
    run and reported. *)
Example bulk_continues_after_failure :
  trace (prompt_user_action nat second_fails ["f1"; "f2"; "f3"]
           ["a"; "restart"; ""] 0)
  = [ShowMenu ["f1"; "f2"; "f3"]; AskChoice; AskBulkAction;
     Run ["docker-compose"; "-f"; "f1"; "restart"]; Completed "f1" "restart";
     Run ["docker-compose"; "-f"; "f2"; "restart"]; Failed "f2" "restart";
     Run ["docker-compose"; "-f"; "f3"; "restart"]; Completed "f3" "restart";
     ShowMenu ["f1"; "f2"; "f3"]; AskChoice].
Proof. reflexivity. Qed.

(** * Further properties *)

(** ** PathScanner: what a scan returns *)

Lemma depth_nonneg (root_path dirpath : string) : (0 <= depth root_path dirpath)%Z.
Proof. unfold depth. lia. Qed.

Lemma walk_subs_cons {A : Type}
    (body : string -> list string -> list string -> A -> result (A * bool))
    (top : string) (s : dir) (r : list dir) (a : A) :
  walk_subs body top (s :: r) a =
  match os_walk body (OsPath.join top (dname s)) s a with
  | Raise e => Raise e
  | Ok a' => walk_subs body top r a'
  end.
Proof. reflexivity. Qed.

Section ScanMore.

Variable re_search : string -> string -> result bool.
Variables (root_path : string) (max_depth : Z) (patterns : list string).

Local Abbreviation body := (visit re_search root_path max_depth patterns).
Local Abbreviation seen := (scanned re_search root_path max_depth patterns).

Lemma visit_exact (top : string) (dn fs acc acc1 : list string) (keep : bool) :
  body top dn fs acc = Ok (acc1, keep) ->
  (keep = false /\ acc1 = acc /\ ~ seen top)
  \/ (keep = true /\ seen top
      /\ acc1 = (acc ++ if str_in compose_name fs
                        then [OsPath.join top compose_name] else [])%list).
Proof.
  unfold visit, scanned.
  destruct (depth root_path top <? max_depth)%Z eqn:D.
  - apply Z.ltb_lt in D.
    destruct (any_search re_search patterns top) as [[|]|e] eqn:S; simpl;
      [| | discriminate].
    + intros [= <- <-]. left. repeat split. intros [_ H]. discriminate.
    + destruct (str_in compose_name fs); intros [= <- <-]; right;
        repeat split; auto. now rewrite app_nil_r.
  - apply Z.ltb_ge in D. intros [= <- <-]. left. repeat split. intros [H _]. lia.
Qed.

(** The paths a walk adds are the compose files of the directories it
    yields and looks into, no more and no fewer. *)
Lemma walk_exact (d : dir) :
  forall top acc res,
    os_walk body top d acc = Ok res ->
    exists new,
      res = (acc ++ new)%list
      /\ forall r, In r new <->
                   exists p e, yields seen top d p e /\ seen p
                               /\ In compose_name (dfiles e)
                               /\ r = OsPath.join p compose_name.
Proof.
  induction d as [n l fs subs IH] using dir_induction. intros top acc res H.
  rewrite os_walk_eq in H. destruct l.
  2: { injection H as <-. exists []. rewrite app_nil_r. split; [auto |].
       intros r. split; [intros [] |].
       intros (p & e & Y & _). inversion Y; subst; simpl in *; discriminate. }
  destruct (body top (map dname subs) fs acc) as [[acc1 keep]|e] eqn:E;
    [| discriminate].
  apply visit_exact in E as [(-> & -> & Hn) | (-> & Hseen & ->)].
  { injection H as <-. exists []. rewrite app_nil_r. split; [auto |].
    intros r. split; [intros [] |].
    intros (p & e & Y & Sp & _). inversion Y; subst; contradiction. }
  assert (Hsubs : forall l a out,
             (forall s, In s l -> In s subs) ->
             walk_subs body top l a = Ok out ->
             exists new,
               out = (a ++ new)%list
               /\ forall r, In r new <->
                            exists s p e,
                              In s l
                              /\ yields seen (OsPath.join top (dname s)) s p e
                              /\ seen p /\ In compose_name (dfiles e)
                              /\ r = OsPath.join p compose_name).
  { clear H. induction l as [|s l IHl]; intros a out Hin H.
    - injection H as <-. exists []. rewrite app_nil_r. split; [auto |].
      intros r. split; [intros [] | intros (s & p & e & [] & _)].
    - rewrite walk_subs_cons in H.
      destruct (os_walk body (OsPath.join top (dname s)) s a) as [a'|e] eqn:W;
        [| discriminate].
      apply (IH s (Hin s (or_introl eq_refl))) in W as (new1 & -> & F1).
      apply IHl in H as (new2 & -> & F2); [| intros x Hx; apply Hin; now right].
      exists (new1 ++ new2)%list. split; [now rewrite app_assoc |].
      intros r. rewrite in_app_iff, F1, F2. split.
      + intros [(p & e & Y & R) | (s' & p & e & Hs' & R)].
        * exists s, p, e. split; [now left | auto].
        * exists s', p, e. split; [now right | auto].
      + intros (s' & p & e & [<- | Hs'] & R).
        * left. eauto.
        * right. eauto 6. }
  apply Hsubs in H as (new & -> & F); [| auto].
  exists ((if str_in compose_name fs
           then [OsPath.join top compose_name] else []) ++ new)%list.
  split; [now rewrite app_assoc |].
  intros r. rewrite in_app_iff, F. split.
  - intros [Hown | (s & p & e & Hs & Y & R)].
    + destruct (str_in compose_name fs) eqn:Fc; [| destruct Hown].
      destruct Hown as [<- | []].
      exists top, (Dir n true fs subs).
      split; [now constructor |]. split; [exact Hseen |].
      split; [now apply str_in_In | reflexivity].
    + exists p, e. split; [| exact R].
      apply (yields_down seen top (Dir n true fs subs) s p e); auto.
  - intros (p & e & Y & Sp & Hf & ->).
    inversion Y as [? ? L | ? ? s ? ? L St Hs Y']; subst.
    + left. simpl in Hf. apply str_in_In in Hf. rewrite Hf. now left.
    + right. exists s, p, e. auto.
Qed.

Lemma walk_returns (d : dir) :
  (forall pat s, In pat patterns -> exists b, re_search pat s = Ok b) ->
  forall top acc, exists res, os_walk body top d acc = Ok res.
Proof.
  intros Hre.
  assert (Hany : forall p, exists b, any_search re_search patterns p = Ok b).
  { intros p. induction patterns as [|q ps IHp]; simpl; [eauto |].
    destruct (Hre q p (or_introl eq_refl)) as [[|] ->]; [eauto |].
    apply IHp. intros pat s Hin. apply Hre. now right. }
  induction d as [n l fs subs IH] using dir_induction. intros top acc.
  rewrite os_walk_eq. destruct l; [| eauto].
  unfold visit. destruct (depth root_path top <? max_depth)%Z; [| eauto].
  destruct (Hany top) as [[|] ->]; simpl; [eauto |].
  assert (Hsubs : forall l a, (forall s, In s l -> In s subs) ->
                              exists res, walk_subs body top l a = Ok res).
  { induction l as [|s l IHl]; intros a Hin; [simpl; eauto |].
    rewrite walk_subs_cons.
    destruct (IH s (Hin s (or_introl eq_refl)) (OsPath.join top (dname s)) a)
      as [a' ->].
    apply IHl. intros x Hx. apply Hin. now right. }
  destruct (str_in compose_name fs); apply Hsubs; auto.
Qed.

End ScanMore.

(** X1. What a scan returns is exactly the compose file of every directory
    that [os.walk] yields on the way down through listable directories that
    are within the depth bound and matched by no pattern, and that is itself
    within the bound, unmatched, and holds a file named docker-compose.yml. *)
Theorem scan_returns_exactly_the_reachable_compose_files
    (re_search : string -> string -> result bool)
    (root_path : string) (max_depth : Z)
    (exclude_patterns : option (list string)) (fs : dir)
    (res : list string) (r : string) :
  find_docker_compose_files re_search root_path max_depth exclude_patterns fs
  = Ok res ->
  (In r res <->
   exists p e,
     yields (scanned re_search root_path max_depth (or_empty exclude_patterns))
            root_path fs p e
     /\ scanned re_search root_path max_depth (or_empty exclude_patterns) p
     /\ In compose_name (dfiles e)
     /\ r = OsPath.join p compose_name).
Proof.
  unfold find_docker_compose_files. intros H.
  apply walk_exact in H as (new & -> & F). simpl. apply F.
Qed.

Lemma scan_returns_exactly_the_reachable_compose_files_witness :
  In "./app/db/docker-compose.yml"
     ["./app/docker-compose.yml"; "./app/db/docker-compose.yml"]
  <-> exists p e,
        yields (scanned literal_search "." 3 (or_empty (Some ["_bk"])))
               "." sample_tree p e
        /\ scanned literal_search "." 3 (or_empty (Some ["_bk"])) p
        /\ In compose_name (dfiles e)
        /\ "./app/db/docker-compose.yml" = OsPath.join p compose_name.
Proof.
  apply (scan_returns_exactly_the_reachable_compose_files literal_search "." 3
           (Some ["_bk"]) sample_tree).
  reflexivity.
Defined.

(** X2. When the regular-expression engine accepts every exclusion pattern,
    the scan returns a list: it raises only through [re.search]. *)
Theorem scan_returns_when_patterns_compile
    (re_search : string -> string -> result bool)
    (root_path : string) (max_depth : Z)
    (exclude_patterns : option (list string)) (fs : dir) :
  (forall pat s, In pat (or_empty exclude_patterns) ->
                 exists b, re_search pat s = Ok b) ->
  exists res,
    find_docker_compose_files re_search root_path max_depth exclude_patterns fs
    = Ok res.
Proof. intros H. unfold find_docker_compose_files. now apply walk_returns. Qed.

Lemma scan_returns_when_patterns_compile_witness :
  exists res,
    find_docker_compose_files literal_search "." 2 (Some ["_bk"; "_old"])
      sample_tree = Ok res.
Proof.
  apply (scan_returns_when_patterns_compile literal_search "." 2
           (Some ["_bk"; "_old"]) sample_tree).
  intros pat s _. unfold literal_search. eexists. reflexivity.
Defined.

(** X3. With a depth bound of zero or less nothing is found, whatever the
    tree: not even a compose file that sits in the root directory. *)
Theorem nonpositive_max_depth_finds_nothing
    (re_search : string -> string -> result bool)
    (root_path : string) (max_depth : Z)
    (exclude_patterns : option (list string)) (fs : dir) :
  (max_depth <= 0)%Z ->
  find_docker_compose_files re_search root_path max_depth exclude_patterns fs
  = Ok [].
Proof.
  intros H. unfold find_docker_compose_files. destruct fs as [n l files subs].
  rewrite os_walk_eq. destruct l; [| reflexivity].
  unfold visit. pose proof (depth_nonneg root_path root_path) as D.
  destruct (depth root_path root_path <? max_depth)%Z eqn:E; [| reflexivity].
  apply Z.ltb_lt in E. lia.
Qed.

Lemma nonpositive_max_depth_finds_nothing_witness :
  find_docker_compose_files literal_search "." 0 None
    (Dir "." true [compose_name] [sample_app]) = Ok [].
Proof.
  apply (nonpositive_max_depth_finds_nothing literal_search "." 0 None
           (Dir "." true [compose_name] [sample_app])).
  lia.
Defined.

Lemma path_of_extends (top : string) (ns : list string) :
  Forall (fun n => entry_name n = true) ns ->
  exists m, path_of top ns = top ++ m.
Proof.
  unfold path_of. revert top.
  induction ns as [|n ns IH]; intros top H; cbn [fold_left].
  - exists "". now rewrite str_app_nil_r.
  - inversion H as [|? ? Hn Hns]; subst.
    destruct (IH (OsPath.join top n) Hns) as [m ->].
    apply PathFacts.entry_name_spec in Hn as [_ Hn].
    destruct (PathFacts.join_shape top n (PathFacts.no_sep_start n Hn))
      as [-> | ->]; rewrite str_app_assoc; eauto.
Qed.

(** X4. In a tree of properly named entries, every returned path is the root
    path as it was given, followed by the way down and the file name
    docker-compose.yml. *)
Theorem found_paths_extend_the_root_path
    (re_search : string -> string -> result bool)
    (root_path : string) (max_depth : Z)
    (exclude_patterns : option (list string)) (fs : dir)
    (res : list string) (r : string) :
  proper_tree fs = true ->
  find_docker_compose_files re_search root_path max_depth exclude_patterns fs
  = Ok res ->
  In r res ->
  exists way, r = root_path ++ way ++ compose_name.
Proof.
  unfold find_docker_compose_files. intros Hp H Hin.
  apply walk_found in H as (new & -> & F). simpl in Hin.
  destruct (F r Hin) as (ns & e & Hd & _ & _ & ->).
  destruct (descend_names _ _ _ Hd Hp) as [N _].
  destruct (path_of_extends root_path ns N) as [m ->].
  destruct (PathFacts.join_shape (root_path ++ m) compose_name eq_refl)
    as [-> | ->].
  - exists m. now rewrite str_app_assoc.
  - exists (m ++ String OsPath.sep ""). now rewrite !str_app_assoc.
Qed.

Lemma found_paths_extend_the_root_path_witness :
  exists way, "./app/docker-compose.yml" = "." ++ way ++ compose_name.
Proof.
  apply (found_paths_extend_the_root_path literal_search "." 2 (Some ["_bk"])
           sample_tree ["./app/docker-compose.yml"]).
  - reflexivity.
  - reflexivity.
  - simpl. left. reflexivity.
Defined.

Lemma distinct_siblings_inv (n : string) (l : bool) (fs : list string)
    (subs : list dir) :
  distinct_siblings (Dir n l fs subs) ->
  NoDup (map dname subs) /\ forall s, In s subs -> distinct_siblings s.
Proof.
  cbn [distinct_siblings]. intros [H1 H2]. split; [exact H1 |].
  clear H1. induction subs as [|x subs IH]; intros s Hs; [destruct Hs |].
  destruct H2 as [Hx Hr]. destruct Hs as [<- | Hs]; [exact Hx | now apply IH].
Qed.

Lemma proper_tree_inv (n : string) (l : bool) (fs : list string)
    (subs : list dir) (s : dir) :
  proper_tree (Dir n l fs subs) = true -> In s subs ->
  entry_name (dname s) = true /\ proper_tree s = true.
Proof.
  simpl. intros H Hs. apply andb_true_iff in H as [_ H].
  rewrite forallb_forall in H. now apply andb_true_iff, H.
Qed.

Lemma compose_path_inj (top : string) (ns ns' : list string) :
  Forall (fun n => entry_name n = true) ns ->
  Forall (fun n => entry_name n = true) ns' ->
  OsPath.join (path_of top ns) compose_name
  = OsPath.join (path_of top ns') compose_name ->
  ns = ns'.
Proof.
  intros N N' E. apply PathFacts.join_inj in E as [E _]; try reflexivity.
  now apply (PathFacts.path_of_inj top).
Qed.

Section ScanNoDup.

Variable re_search : string -> string -> result bool.
Variables (root_path : string) (max_depth : Z) (patterns : list string).

Local Abbreviation body := (visit re_search root_path max_depth patterns).

Lemma walk_nodup (d : dir) :
  proper_tree d = true -> distinct_siblings d ->
  forall top acc res,
    os_walk body top d acc = Ok res ->
    exists new,
      res = (acc ++ new)%list /\ NoDup new
      /\ forall r, In r new ->
                   exists ns, Forall (fun n => entry_name n = true) ns
                              /\ r = OsPath.join (path_of top ns) compose_name.
Proof.
  induction d as [n l fs subs IH] using dir_induction.
  intros Hp Hd top acc res H.
  destruct (distinct_siblings_inv _ _ _ _ Hd) as [Hnd Hds].
  rewrite os_walk_eq in H. destruct l.
  2: { injection H as <-. exists []. rewrite app_nil_r.
       repeat split; [constructor | intros ? []]. }
  destruct (body top (map dname subs) fs acc) as [[acc1 keep]|e] eqn:E;
    [| discriminate].
  apply visit_exact in E as [(-> & -> & _) | (-> & _ & ->)].
  { injection H as <-. exists []. rewrite app_nil_r.
    repeat split; [constructor | intros ? []]. }
  assert (Hsubs : forall l a out,
             (forall s, In s l -> In s subs) -> NoDup (map dname l) ->
             walk_subs body top l a = Ok out ->
             exists new,
               out = (a ++ new)%list /\ NoDup new
               /\ forall r, In r new ->
                            exists s ns,
                              In s l
                              /\ Forall (fun n => entry_name n = true)
                                        (dname s :: ns)
                              /\ r = OsPath.join (path_of top (dname s :: ns))
                                       compose_name).
  { clear H. induction l as [|s l IHl]; intros a out Hin Hnl H.
    - injection H as <-. exists []. rewrite app_nil_r.
      repeat split; [constructor | intros ? []].
    - rewrite walk_subs_cons in H.
      destruct (os_walk body (OsPath.join top (dname s)) s a) as [a'|e] eqn:W;
        [| discriminate].
      pose proof (Hin s (or_introl eq_refl)) as Hs.
      destruct (proper_tree_inv _ _ _ _ s Hp Hs) as [Ns Ps].
      apply (IH s Hs Ps (Hds s Hs)) in W as (new1 & -> & D1 & F1).
      inversion Hnl as [|? ? Hnotin Hnl']; subst.
      apply IHl in H as (new2 & -> & D2 & F2);
        [| intros x Hx; apply Hin; now right | exact Hnl'].
      exists (new1 ++ new2)%list. split; [now rewrite app_assoc |]. split.
      + apply NoDup_app; auto. intros r H1 H2.
        destruct (F1 r H1) as (ns1 & N1 & E1).
        destruct (F2 r H2) as (s' & ns2 & Hs' & N2 & E2).
        rewrite E1 in E2.
        apply (compose_path_inj top (dname s :: ns1) (dname s' :: ns2)) in E2;
          [| now constructor | exact N2].
        injection E2 as E2 _. apply Hnotin. rewrite E2. now apply in_map.
      + intros r Hr. apply in_app_or in Hr as [Hr | Hr].
        * destruct (F1 r Hr) as (ns1 & N1 & E1).
          exists s, ns1. repeat split; [now left | now constructor | exact E1].
        * destruct (F2 r Hr) as (s' & ns2 & Hs' & R).
          exists s', ns2. split; [now right | exact R]. }
  apply Hsubs in H as (new & -> & D & F); [| auto | exact Hnd].
  exists ((if str_in compose_name fs
           then [OsPath.join top compose_name] else []) ++ new)%list.
  split; [now rewrite app_assoc |]. split.
  - apply NoDup_app; auto.
    + destruct (str_in compose_name fs); repeat constructor; intros [].
    + intros r H1 H2. destruct (str_in compose_name fs); [| destruct H1].
      destruct H1 as [<- | []].
      destruct (F _ H2) as (s & ns & _ & N & E).
      apply (compose_path_inj top [] (dname s :: ns)) in E;
        [discriminate | constructor | exact N].
  - intros r Hr. apply in_app_or in Hr as [Hr | Hr].
    + destruct (str_in compose_name fs); [| destruct Hr].
      destruct Hr as [<- | []]. exists []. split; [constructor | reflexivity].
    + destruct (F r Hr) as (s & ns & _ & N & E). eauto.
Qed.

End ScanNoDup.

(** X5. In a tree of properly named entries whose sibling directories have
    different names, no path is returned twice. *)
Theorem scan_returns_no_path_twice
    (re_search : string -> string -> result bool)
    (root_path : string) (max_depth : Z)
    (exclude_patterns : option (list string)) (fs : dir) (res : list string) :
  proper_tree fs = true ->
  distinct_siblings fs ->
  find_docker_compose_files re_search root_path max_depth exclude_patterns fs
  = Ok res ->
  NoDup res.
Proof.
  unfold find_docker_compose_files. intros Hp Hd H.
  apply walk_nodup in H as (new & -> & D & _); auto.
Qed.

Lemma scan_returns_no_path_twice_witness :
  NoDup ["./app/docker-compose.yml"; "./app/db/docker-compose.yml"].
Proof.
  apply (scan_returns_no_path_twice literal_search "." 3 (Some ["_bk"])
           sample_tree).
  - reflexivity.
  - simpl. repeat split; repeat constructor; simpl; intuition discriminate.
  - reflexivity.
Defined.

(** ** ComposeSpecReader: the index and the diagnostics *)

Lemma dict_get_set {V : Type} (k : string) (v : V) (d : list (string * V))
    (k' : string) :
  dict_get k' (dict_set k v d)
  = if String.eqb k' k then Some v else dict_get k' d.
Proof.
  induction d as [|[k0 v0] d IH]; simpl.
  - destruct (String.eqb k' k); reflexivity.
  - destruct (String.eqb_spec k k0) as [-> | N]; simpl.
    + destruct (String.eqb k' k0); reflexivity.
    + rewrite IH. destruct (String.eqb_spec k' k0) as [-> | N'];
        [| reflexivity].
      destruct (String.eqb_spec k0 k); [congruence | reflexivity].
Qed.

Lemma dict_set_keys_present {V : Type} (k : string) (v : V)
    (d : list (string * V)) :
  In k (dict_keys d) -> dict_keys (dict_set k v d) = dict_keys d.
Proof.
  unfold dict_keys. induction d as [|[k0 v0] d IH]; simpl; [intros [] |].
  destruct (String.eqb_spec k k0) as [-> | N]; [reflexivity |].
  intros [E | H]; [congruence |]. simpl. now rewrite IH.
Qed.

Lemma dict_set_keys_absent {V : Type} (k : string) (v : V)
    (d : list (string * V)) :
  ~ In k (dict_keys d) -> dict_keys (dict_set k v d) = (dict_keys d ++ [k])%list.
Proof.
  unfold dict_keys. induction d as [|[k0 v0] d IH]; simpl; [reflexivity |].
  intros H. destruct (String.eqb_spec k k0) as [-> | N]; [tauto |].
  simpl. rewrite IH; tauto.
Qed.

Lemma dict_set_keys_nodup {V : Type} (k : string) (v : V)
    (d : list (string * V)) :
  NoDup (dict_keys d) -> NoDup (dict_keys (dict_set k v d)).
Proof.
  intros H. destruct (in_dec string_dec k (dict_keys d)) as [I | I].
  - now rewrite dict_set_keys_present.
  - rewrite dict_set_keys_absent by assumption.
    apply NoDup_app; [exact H | repeat constructor; intros [] |].
    intros a Ha [<- | []]. contradiction.
Qed.

Section IndexFacts.

Variable load : string -> result pyval.

Lemma get_ports_loop_get (files : list string) :
  forall ports diagnostics f,
    dict_get f (fst (get_ports_loop load files ports diagnostics))
    = if str_in f files && indexed load f
      then match read_file_ports load f with
           | Ok fp => Some fp
           | Raise _ => None
           end
      else dict_get f ports.
Proof.
  induction files as [|file_path files IH]; intros ports diagnostics f;
    [reflexivity |].
  cbn [get_ports_loop str_in].
  destruct (read_file_ports load file_path) as [[|x fp]|e] eqn:E;
    cbn [is_empty]; rewrite IH.
  - destruct (String.eqb_spec f file_path) as [-> | N]; [| reflexivity].
    unfold indexed. rewrite E. now rewrite andb_false_r.
  - rewrite dict_get_set.
    destruct (String.eqb_spec f file_path) as [-> | N]; [| reflexivity].
    unfold indexed. rewrite E. now destruct (str_in file_path files).
  - destruct (String.eqb_spec f file_path) as [-> | N]; [| reflexivity].
    unfold indexed. rewrite E. now rewrite andb_false_r.
Qed.

Lemma get_ports_loop_keys_nodup (files : list string) :
  forall ports diagnostics,
    NoDup (dict_keys ports) ->
    NoDup (dict_keys (fst (get_ports_loop load files ports diagnostics))).
Proof.
  induction files as [|file_path files IH]; intros ports diagnostics H;
    [exact H |].
  cbn [get_ports_loop].
  destruct (read_file_ports load file_path) as [[|x fp]|e]; cbn [is_empty];
    apply IH; auto using dict_set_keys_nodup.
Qed.

Lemma get_ports_loop_keys (files : list string) :
  forall ports diagnostics,
    NoDup files ->
    (forall f, In f files -> ~ In f (dict_keys ports)) ->
    dict_keys (fst (get_ports_loop load files ports diagnostics))
    = (dict_keys ports ++ filter (indexed load) files)%list.
Proof.
  induction files as [|file_path files IH]; intros ports diagnostics ND Hfresh.
  - simpl. now rewrite app_nil_r.
  - inversion ND as [|? ? Hnotin ND']; subst.
    assert (Hrest : forall f, In f files -> ~ In f (dict_keys ports))
      by (intros f Hf; apply Hfresh; now right).
    cbn [get_ports_loop filter].
    destruct (read_file_ports load file_path) as [[|x fp]|e] eqn:E;
      cbn [is_empty];
      [replace (indexed load file_path) with false
         by (unfold indexed; now rewrite E)
      |replace (indexed load file_path) with true
         by (unfold indexed; now rewrite E)
      |replace (indexed load file_path) with false
         by (unfold indexed; now rewrite E)].
    + now apply IH.
    + rewrite IH; [| exact ND' |].
      * rewrite dict_set_keys_absent by (apply Hfresh; now left).
        now rewrite <- app_assoc.
      * intros f Hf. rewrite dict_set_keys. intros [-> | H]; [contradiction |].
        now apply (Hrest f).
    + now apply IH.
Qed.

Lemma get_ports_loop_diagnostics_list (files : list string) :
  forall ports diagnostics,
    snd (get_ports_loop load files ports diagnostics)
    = (diagnostics ++ flat_map (diagnostic_of load) files)%list.
Proof.
  induction files as [|file_path files IH]; intros ports diagnostics.
  - simpl. now rewrite app_nil_r.
  - cbn [get_ports_loop flat_map]. unfold diagnostic_of at 1.
    destruct (read_file_ports load file_path) as [fp|e].
    + destruct (is_empty fp); now rewrite IH.
    + rewrite IH. now rewrite <- app_assoc.
Qed.

End IndexFacts.

(** X6. Looking a path up in the index gives a map exactly when the path is
    one of the input files, its processing went through, and the map it
    computed is not empty; that map is then the one found.  A failure on one
    file changes nothing for another. *)
Theorem index_lookup_is_the_files_own_map
    (load : string -> result pyval) (files : list string)
    (f : string) (fp : list (string * list string)) :
  dict_get f (fst (get_ports_from_docker_compose load files)) = Some fp
  <-> In f files /\ read_file_ports load f = Ok fp /\ fp <> [].
Proof.
  unfold get_ports_from_docker_compose. rewrite get_ports_loop_get.
  unfold indexed. split.
  - destruct (str_in f files) eqn:I; simpl; [| discriminate].
    apply str_in_In in I.
    destruct (read_file_ports load f) as [[|x l]|e]; try discriminate.
    intros [= <-]. repeat split; [exact I | discriminate].
  - intros (I & R & N). apply str_in_In in I. rewrite I, R.
    destruct fp; [congruence | reflexivity].
Qed.

(** X7. The index has one entry per path, also when an input path is given
    more than once. *)
Theorem index_has_one_entry_per_path
    (load : string -> result pyval) (files : list string) :
  NoDup (dict_keys (fst (get_ports_from_docker_compose load files))).
Proof.
  unfold get_ports_from_docker_compose. apply get_ports_loop_keys_nodup.
  constructor.
Qed.

(** X8. When the input paths are distinct, the index lists, in input order,
    the files whose processing went through with at least one service that
    has ports. *)
Theorem index_keeps_discovery_order
    (load : string -> result pyval) (files : list string) :
  NoDup files ->
  dict_keys (fst (get_ports_from_docker_compose load files))
  = filter (indexed load) files.
Proof.
  intros H. unfold get_ports_from_docker_compose.
  rewrite get_ports_loop_keys; auto.
Qed.

Lemma index_keeps_discovery_order_witness :
  dict_keys (fst (get_ports_from_docker_compose sample_load
                    ["b/docker-compose.yml"; "a/docker-compose.yml"]))
  = filter (indexed sample_load) ["b/docker-compose.yml"; "a/docker-compose.yml"].
Proof.
  apply (index_keeps_discovery_order sample_load
           ["b/docker-compose.yml"; "a/docker-compose.yml"]).
  repeat constructor; simpl; intuition discriminate.
Defined.

(** X9. The diagnostics are one per input file whose processing raised, with
    the exception raised, in input order (a path given twice is reported
    twice). *)
Theorem diagnostics_are_the_failures_in_order
    (load : string -> result pyval) (files : list string) :
  snd (get_ports_from_docker_compose load files)
  = flat_map (diagnostic_of load) files.
Proof.
  unfold get_ports_from_docker_compose.
  now rewrite get_ports_loop_diagnostics_list.
Qed.

(** ** ComposeSpecReader: port tokens and document shapes *)

Lemma split_head (c : ascii) (s : string) :
  exists h tl rest,
    split c s = h :: tl /\ count_char c h = 0 /\ s = h ++ rest
    /\ (rest = "" \/ exists r, rest = String c r).
Proof.
  induction s as [|a s IH]; simpl.
  - exists "", [], "". auto.
  - destruct (Ascii.eqb_spec a c) as [-> | N].
    + exists "", (split c s), (String c s). repeat split; eauto.
    + destruct IH as (h & tl & rest & -> & H0 & -> & Hr).
      exists (String a h), tl, rest. simpl.
      destruct (Ascii.eqb_spec a c); [congruence | auto].
Qed.

(** X10. For a string token the extraction never fails, and what it keeps is
    the part of the token before its first colon: colon-free, and followed in
    the token by nothing or by a colon. *)
Theorem host_segment_is_the_part_before_the_first_colon (s : string) :
  exists h rest,
    host_segment (PStr s) = Ok h
    /\ count_char ":"%char h = 0
    /\ s = h ++ rest
    /\ (rest = "" \/ exists r, rest = String ":"%char r).
Proof.
  destruct (split_head ":"%char s) as (h & tl & rest & E & H0 & Hs & Hr).
  exists h, rest. unfold host_segment. rewrite E. auto.
Qed.

Lemma host_segment_string (s : string) :
  host_segment (PStr s) = Ok (hd "" (split ":"%char s)).
Proof.
  destruct (split_head ":"%char s) as (h & tl & rest & E & _).
  unfold host_segment. now rewrite E.
Qed.

Lemma map_result_host_segment_strings (tokens : list string) :
  map_result host_segment (map PStr tokens)
  = Ok (map (fun t => hd "" (split ":"%char t)) tokens).
Proof.
  induction tokens as [|t tokens IH]; [reflexivity |].
  cbn [map map_result]. rewrite host_segment_string, IH. reflexivity.
Qed.

Lemma map_result_host_segment_raises (l : list pyval) (v : pyval) :
  In v l -> (forall s, v <> PStr s) ->
  map_result host_segment l = Raise AttributeError.
Proof.
  intros Hin Hv. induction l as [|x l IH]; [destruct Hin |].
  cbn [map_result].
  destruct x as [| b | z | f | s | xs | kv];
    try reflexivity.
  rewrite host_segment_string. simpl.
  destruct Hin as [E | Hin]; [destruct (Hv s); now symmetry |].
  now rewrite (IH Hin).
Qed.

Lemma dict_get_in_keys {V : Type} (k : string) (d : list (string * V)) (v : V) :
  dict_get k d = Some v -> str_in k (dict_keys d) = true.
Proof.
  unfold dict_keys. induction d as [|[k0 v0] d IH]; simpl; [discriminate |].
  destruct (String.eqb k k0); auto.
Qed.

Lemma service_step_raises (name : string) (fields : list (string * pyval))
    (entries : list pyval) (v : pyval) (fp : list (string * list string)) :
  dict_get "ports" fields = Some (PList entries) ->
  In v entries -> (forall s, v <> PStr s) ->
  service_step name (PDict fields) fp = Raise AttributeError.
Proof.
  intros Hp Hin Hv. unfold service_step. simpl.
  rewrite (dict_get_in_keys _ _ _ Hp), Hp. simpl.
  now rewrite (map_result_host_segment_raises entries v Hin Hv).
Qed.

Lemma services_loop_raises (l : list (string * pyval)) (name : string)
    (data : pyval) (e0 : exn) :
  In (name, data) l ->
  (forall fp, service_step name data fp = Raise e0) ->
  forall fp, exists e, services_loop l fp = Raise e.
Proof.
  intros Hin Hs. induction l as [|[sn sd] l IH]; intros fp; [destruct Hin |].
  cbn [services_loop].
  destruct Hin as [[= -> ->] | Hin].
  - rewrite Hs. simpl. eauto.
  - destruct (service_step sn sd fp) as [fp'|e]; simpl; [now apply IH | eauto].
Qed.

(** X11. A port entry that is not a string, in any service of a document,
    makes the processing of that file raise: the file gets no entry in the
    index, whatever its other services declare, and a diagnostic when it is
    among the input files. *)
Theorem non_string_port_discards_the_file
    (load : string -> result pyval) (files : list string) (f : string)
    (top : list (string * pyval)) (l : list (string * pyval))
    (name : string) (fields : list (string * pyval))
    (entries : list pyval) (v : pyval) :
  load f = Ok (PDict top) ->
  dict_get "services" top = Some (PDict l) ->
  In (name, PDict fields) l ->
  dict_get "ports" fields = Some (PList entries) ->
  In v entries ->
  (forall s, v <> PStr s) ->
  exists e,
    read_file_ports load f = Raise e
    /\ dict_get f (fst (get_ports_from_docker_compose load files)) = None
    /\ (In f files -> In (f, e) (snd (get_ports_from_docker_compose load files))).
Proof.
  intros L S Hin Hp Hv Hns.
  assert (R : exists e, read_file_ports load f = Raise e).
  { unfold read_file_ports. rewrite L. simpl. rewrite S. simpl.
    apply (services_loop_raises l name (PDict fields) AttributeError Hin).
    intros fp. now apply (service_step_raises name fields entries v). }
  destruct R as [e R]. exists e. split; [exact R |]. split.
  - unfold get_ports_from_docker_compose. rewrite get_ports_loop_get.
    unfold indexed. rewrite R. now rewrite andb_false_r.
  - intros Hf. unfold get_ports_from_docker_compose.
    apply get_ports_loop_diagnostics. right. auto.
Qed.

Lemma non_string_port_discards_the_file_witness :
  exists e,
    read_file_ports sample_load "b/docker-compose.yml" = Raise e
    /\ dict_get "b/docker-compose.yml"
         (fst (get_ports_from_docker_compose sample_load
                 ["a/docker-compose.yml"; "b/docker-compose.yml"])) = None
    /\ (In "b/docker-compose.yml" ["a/docker-compose.yml"; "b/docker-compose.yml"] ->
        In ("b/docker-compose.yml", e)
           (snd (get_ports_from_docker_compose sample_load
                   ["a/docker-compose.yml"; "b/docker-compose.yml"]))).
Proof.
  apply (non_string_port_discards_the_file sample_load
           ["a/docker-compose.yml"; "b/docker-compose.yml"]
           "b/docker-compose.yml"
           [("services",
             PDict [("api", PDict [("ports", PList [PStr "3000:3000/tcp"])]);
                    ("db", PDict [("ports", PList [PInt 5432])])])]
           [("api", PDict [("ports", PList [PStr "3000:3000/tcp"])]);
            ("db", PDict [("ports", PList [PInt 5432])])]
           "db" [("ports", PList [PInt 5432])] [PInt 5432] (PInt 5432)).
  - reflexivity.
  - reflexivity.
  - simpl. right. left. reflexivity.
  - reflexivity.
  - simpl. left. reflexivity.
  - intros s. discriminate.
Defined.

(** X12. A document that is a mapping without a [services] key is taken to
    have no services: the file gets no entry in the index and no
    diagnostic. *)
Theorem missing_services_key_is_silent
    (load : string -> result pyval) (files : list string) (f : string)
    (top : list (string * pyval)) :
  load f = Ok (PDict top) ->
  dict_get "services" top = None ->
  read_file_ports load f = Ok []
  /\ dict_get f (fst (get_ports_from_docker_compose load files)) = None
  /\ forall e, ~ In (f, e) (snd (get_ports_from_docker_compose load files)).
Proof.
  intros L S.
  assert (R : read_file_ports load f = Ok []).
  { unfold read_file_ports. rewrite L. simpl. now rewrite S. }
  split; [exact R |]. split.
  - unfold get_ports_from_docker_compose. rewrite get_ports_loop_get.
    unfold indexed. rewrite R. now rewrite andb_false_r.
  - intros e H. unfold get_ports_from_docker_compose in H.
    apply get_ports_loop_diagnostics in H as [[] | [_ H]]. congruence.
Qed.

Lemma missing_services_key_is_silent_witness :
  read_file_ports (fun _ => Ok (PDict [("version", PStr "3")])) "x.yml" = Ok []
  /\ dict_get "x.yml"
       (fst (get_ports_from_docker_compose
               (fun _ => Ok (PDict [("version", PStr "3")])) ["x.yml"])) = None
  /\ forall e,
       ~ In ("x.yml", e)
            (snd (get_ports_from_docker_compose
                    (fun _ => Ok (PDict [("version", PStr "3")])) ["x.yml"])).
Proof.
  apply (missing_services_key_is_silent
           (fun _ => Ok (PDict [("version", PStr "3")])) ["x.yml"] "x.yml"
           [("version", PStr "3")]).
  - reflexivity.
  - reflexivity.
Defined.

Lemma service_step_get_other (sn : string) (sd : pyval)
    (fp fp' : list (string * list string)) (name : string) :
  service_step sn sd fp = Ok fp' -> name <> sn ->
  dict_get name fp' = dict_get name fp.
Proof.
  unfold service_step.
  destruct (has_ports sd) as [[|]|e]; simpl; [| | discriminate].
  - destruct (get_ports_field sd) as [field|e]; simpl; [| discriminate].
    destruct (iterate field) as [entries|e]; simpl; [| discriminate].
    destruct (map_result host_segment entries) as [hosts|e]; simpl;
      [| discriminate].
    intros [= <-] N. rewrite dict_get_set.
    destruct (String.eqb_spec name sn); [congruence | reflexivity].
  - now intros [= <-].
Qed.

Lemma services_loop_get_other (l : list (string * pyval)) (name : string) :
  ~ In name (map fst l) ->
  forall fp fp', services_loop l fp = Ok fp' ->
                 dict_get name fp' = dict_get name fp.
Proof.
  induction l as [|[sn sd] l IH]; intros Hn fp fp' H; simpl in H.
  - now injection H as <-.
  - destruct (service_step sn sd fp) as [fp1|e] eqn:E; simpl in H;
      [| discriminate].
    simpl in Hn. rewrite (IH ltac:(tauto) _ _ H).
    apply (service_step_get_other sn sd); [exact E |].
    intros ->. apply Hn. now left.
Qed.

Lemma services_loop_get (l : list (string * pyval)) (name : string)
    (fields : list (string * pyval)) (tokens : list string) :
  NoDup (map fst l) ->
  In (name, PDict fields) l ->
  dict_get "ports" fields = Some (PList (map PStr tokens)) ->
  forall fp fp',
    services_loop l fp = Ok fp' ->
    dict_get name fp' = Some (map (fun t => hd "" (split ":"%char t)) tokens).
Proof.
  intros ND Hin Hp. induction l as [|[sn sd] l IH]; intros fp fp' H;
    [destruct Hin |].
  simpl in H. inversion ND as [|? ? Hnotin ND']; subst.
  destruct (service_step sn sd fp) as [fp1|e] eqn:E; simpl in H; [| discriminate].
  destruct Hin as [[= -> ->] | Hin].
  - rewrite (services_loop_get_other l name Hnotin _ _ H).
    unfold service_step in E. simpl in E.
    rewrite (dict_get_in_keys _ _ _ Hp), Hp in E. simpl in E.
    rewrite map_result_host_segment_strings in E. simpl in E.
    injection E as <-. rewrite dict_get_set. now rewrite String.eqb_refl.
  - now apply (IH ND' Hin fp1).
Qed.

(** X13. When a file is read to the end and its service names are distinct,
    the map computed for it gives, for every service whose [ports] is a list
    of strings, the part before the first colon of each token, in the order
    of the list. *)
Theorem service_entry_lists_first_segments_in_order
    (load : string -> result pyval) (f : string)
    (top : list (string * pyval)) (l : list (string * pyval))
    (fp : list (string * list string))
    (name : string) (fields : list (string * pyval)) (tokens : list string) :
  load f = Ok (PDict top) ->
  dict_get "services" top = Some (PDict l) ->
  NoDup (map fst l) ->
  read_file_ports load f = Ok fp ->
  In (name, PDict fields) l ->
  dict_get "ports" fields = Some (PList (map PStr tokens)) ->
  dict_get name fp = Some (map (fun t => hd "" (split ":"%char t)) tokens).
Proof.
  intros L S ND R Hin Hp.
  unfold read_file_ports in R. rewrite L in R. simpl in R. rewrite S in R.
  simpl in R. now apply (services_loop_get l name fields tokens ND Hin Hp [] fp).
Qed.

Lemma service_entry_lists_first_segments_in_order_witness :
  dict_get "web" [("web", ["8080"; "127.0.0.1"])]
  = Some (map (fun t => hd "" (split ":"%char t)) ["8080:80"; "127.0.0.1:9090:90"]).
Proof.
  apply (service_entry_lists_first_segments_in_order sample_load
           "a/docker-compose.yml"
           [("version", PStr "3");
            ("services",
             PDict [("web", PDict [("image", PStr "nginx");
                                   ("ports", PList [PStr "8080:80";
                                                    PStr "127.0.0.1:9090:90"])]);
                    ("worker", PDict [("image", PStr "worker")])])]
           [("web", PDict [("image", PStr "nginx");
                           ("ports", PList [PStr "8080:80";
                                            PStr "127.0.0.1:9090:90"])]);
            ("worker", PDict [("image", PStr "worker")])]
           [("web", ["8080"; "127.0.0.1"])]
           "web"
           [("image", PStr "nginx");
            ("ports", PList [PStr "8080:80"; PStr "127.0.0.1:9090:90"])]
           ["8080:80"; "127.0.0.1:9090:90"]).
  - reflexivity.
  - reflexivity.
  - simpl. repeat constructor; simpl; intuition discriminate.
  - reflexivity.
  - simpl. left. reflexivity.
  - reflexivity.
Defined.

(** X14. Splitting a string at a character and joining the pieces with that
    character gives the string back; there is one piece more than there are
    occurrences of the character. *)
Theorem split_then_join_is_identity (c : ascii) (s : string) :
  str_join (String c "") (split c s) = s
  /\ List.length (split c s) = S (count_char c s).
Proof.
  induction s as [|a s [IH1 IH2]]; [split; reflexivity |].
  cbn [split count_char].
  destruct (Ascii.eqb_spec a c) as [-> | N].
  - split; [| simpl; now rewrite IH2].
    destruct (split c s) as [|h t] eqn:E; [discriminate |].
    change (str_join (String c "") ("" :: h :: t))
      with ("" ++ String c "" ++ str_join (String c "") (h :: t)).
    now rewrite IH1.
  - destruct (split c s) as [|h t] eqn:E; [discriminate |].
    split; [| simpl in *; lia].
    destruct t as [|h' t].
    + simpl in IH1. simpl. now rewrite IH1.
    + change (str_join (String c "") (String a h :: h' :: t))
        with (String a (h ++ String c "" ++ str_join (String c "") (h' :: t))).
      change (str_join (String c "") (h :: h' :: t))
        with (h ++ String c "" ++ str_join (String c "") (h' :: t)) in IH1.
      now rewrite IH1.
Qed.

(** ** RuntimeInspector *)

Lemma host_ports_of_In (pd : option (list (list (string * string)))) (p : string) :
  In p (host_ports_of pd)
  <-> exists bindings port,
        pd = Some bindings /\ In port bindings
        /\ dict_get "HostPort" port = Some p.
Proof.
  destruct pd as [[|b bs]|]; cbn [host_ports_of].
  - split; [intros [] | intros (? & ? & [= <-] & [] & _)].
  - rewrite in_flat_map. split.
    + intros (port & Hin & Hp). exists (b :: bs), port.
      destruct (dict_get "HostPort" port) as [hp|]; [| destruct Hp].
      destruct Hp as [<- | []]. auto.
    + intros (bindings & port & [= <-] & Hin & Hp). exists port.
      rewrite Hp. split; [exact Hin | now left].
  - split; [intros [] | intros (? & ? & [=] & _)].
Qed.

Lemma container_ports_In (c : container) (p : string) :
  In p (container_ports c) <-> publishes c p.
Proof.
  unfold container_ports, publishes. rewrite in_flat_map. split.
  - intros ([key pd] & Hin & Hp). simpl in Hp.
    apply host_ports_of_In in Hp as (bindings & port & -> & H1 & H2).
    exists key, bindings, port. auto.
  - intros (key & bindings & port & Hin & H1 & H2).
    exists (key, Some bindings). split; [exact Hin |].
    apply host_ports_of_In. simpl. eauto.
Qed.

Lemma dict_set_absent {V : Type} (k : string) (v : V) (d : list (string * V)) :
  ~ In k (dict_keys d) -> dict_set k v d = (d ++ [(k, v)])%list.
Proof.
  unfold dict_keys. induction d as [|[k0 v0] d IH]; simpl; [reflexivity |].
  intros H. destruct (String.eqb_spec k k0) as [-> | N]; [tauto |].
  rewrite IH; tauto.
Qed.

Lemma running_loop_distinct (containers : list container) :
  forall running_ports,
    NoDup (map cname containers) ->
    (forall c, In c containers -> ~ In (cname c) (dict_keys running_ports)) ->
    running_loop containers running_ports
    = (running_ports
       ++ map (fun c => (cname c, container_ports c)) containers)%list.
Proof.
  induction containers as [|c cs IH]; intros rp ND Hfresh; simpl.
  - now rewrite app_nil_r.
  - inversion ND as [|? ? Hnotin ND']; subst.
    rewrite IH; [| exact ND' |].
    + rewrite dict_set_absent by (apply Hfresh; now left).
      now rewrite <- app_assoc.
    + intros c' Hc'. rewrite dict_set_keys. intros [E | H].
      * apply Hnotin. rewrite <- E. now apply in_map.
      * apply (Hfresh c'); [now right | exact H].
Qed.

(** X15. When the running containers have distinct names, the result has one
    entry per container, in the order of the listing, holding the [HostPort]
    of every binding of the container that has one; a container that
    publishes nothing is present with an empty list. *)
Theorem running_ports_has_one_entry_per_container (containers : list container) :
  NoDup (map cname containers) ->
  get_ports_from_running_containers (Ok containers)
  = Ok (map (fun c => (cname c, container_ports c)) containers)
  /\ forall c p, In p (container_ports c) <-> publishes c p.
Proof.
  intros ND. split; [| apply container_ports_In].
  unfold get_ports_from_running_containers. simpl.
  rewrite running_loop_distinct; auto.
Qed.

Lemma running_ports_has_one_entry_per_container_witness :
  get_ports_from_running_containers (Ok sample_containers)
  = Ok (map (fun c => (cname c, container_ports c)) sample_containers)
  /\ forall c p, In p (container_ports c) <-> publishes c p.
Proof.
  apply (running_ports_has_one_entry_per_container sample_containers).
  simpl. repeat constructor; simpl; intuition discriminate.
Defined.

(** X16. Runtime inspection and reconciliation together: with distinctly
    named running containers, a declared port is reported unused exactly when
    no binding of any running container has it as its [HostPort]. *)
Theorem unused_iff_no_container_publishes
    (containers : list container) (running_ports : list (string * list string))
    (ports : list string) (p : string) :
  NoDup (map cname containers) ->
  get_ports_from_running_containers (Ok containers) = Ok running_ports ->
  (In p (unused_ports ports running_ports)
   <-> In p ports /\ ~ exists c, In c containers /\ publishes c p).
Proof.
  intros ND H. unfold get_ports_from_running_containers in H. simpl in H.
  rewrite running_loop_distinct in H; auto. injection H as <-.
  rewrite unused_ports_In. unfold bound_by_some.
  split; intros [H1 H2]; (split; [exact H1 |]); intros H3; apply H2.
  - destruct H3 as (c & Hc & Hp).
    exists (cname c), (container_ports c). split.
    + apply in_map_iff. eauto.
    + now apply container_ports_In.
  - destruct H3 as (name & ps & Hin & Hp).
    apply in_map_iff in Hin as (c & [= <- <-] & Hc).
    exists c. split; [exact Hc | now apply container_ports_In].
Qed.

Lemma unused_iff_no_container_publishes_witness :
  In "9090" (unused_ports ["8080"; "9090"]
               [("web_1", ["8080"; "8080"]); ("db_1", [])])
  <-> In "9090" ["8080"; "9090"]
      /\ ~ exists c, In c sample_containers /\ publishes c "9090".
Proof.
  apply (unused_iff_no_container_publishes sample_containers
           [("web_1", ["8080"; "8080"]); ("db_1", [])] ["8080"; "9090"] "9090").
  - simpl. repeat constructor; simpl; intuition discriminate.
  - reflexivity.
Defined.

(** ** [list_ports] *)



(** X18. When the container runtime cannot be queried, [list_ports] that has
    found compose files ends with the runtime's exception after the read
    diagnostics: no report section is printed and the dispatcher is not
    started; when no compose file was found the runtime is not queried at
    all. *)
Theorem runtime_failure_is_fatal_once_files_are_found
    (re_search : string -> string -> result bool)
    (load : string -> result pyval)
    (World : Type) (subprocess_run : World -> list string -> World * outcome)
    (root_path : string) (max_depth : Z)
    (exclude_patterns : option (list string)) (fs : dir)
    (inputs : list string) (w : World) (files : list string) (e : exn) :
  find_docker_compose_files re_search root_path max_depth exclude_patterns fs
  = Ok files ->
  list_ports re_search load (Raise e) World subprocess_run
    root_path max_depth exclude_patterns fs inputs w
  = match files with
    | [] => (None, [NotFound], [], w)
    | _ :: _ =>
        (Some e,
         map (fun '(f, x) => ReadError f x)
             (snd (get_ports_from_docker_compose load files)),
         [], w)
    end.
Proof.
  intros H. unfold list_ports. rewrite H.
  destruct files as [|f files]; [reflexivity |].
  destruct (get_ports_from_docker_compose load (f :: files)) as [cp diags].
  reflexivity.
Qed.

Lemma runtime_failure_is_fatal_once_files_are_found_witness :
  list_ports literal_search sample_load (Raise OSError) unit always_succeeds
    "." 2 (Some ["_bk"]) sample_tree ["1"; "start"; "0"] tt
  = (Some OSError,
     map (fun '(f, x) => ReadError f x)
         (snd (get_ports_from_docker_compose sample_load
                 ["./app/docker-compose.yml"])),
     [], tt).
Proof.
  apply (runtime_failure_is_fatal_once_files_are_found literal_search
           sample_load unit always_succeeds "." 2 (Some ["_bk"]) sample_tree
           ["1"; "start"; "0"] tt ["./app/docker-compose.yml"] OSError).
  reflexivity.
Defined.

(** ** ActionDispatcher: invariants of the loop *)

Lemma py_getitem_In {A : Type} (l : list A) (i : Z) (x : A) :
  py_getitem l i = Ok x -> In x l.
Proof.
  unfold py_getitem.
  destruct ((_ <? 0) || (_ <=? _))%Z; [discriminate |].
  destruct (nth_error l _) eqn:E; [| discriminate].
  intros [= <-]. now apply nth_error_In in E.
Qed.

Lemma py_getitem_out_of_range {A : Type} (l : list A) (i : Z) :
  (Z.of_nat (List.length l) <= i \/ i < - Z.of_nat (List.length l))%Z ->
  py_getitem l i = Raise IndexError.
Proof.
  intros H. unfold py_getitem.
  destruct (i <? 0)%Z eqn:N;
    [apply Z.ltb_lt in N | apply Z.ltb_ge in N].
  - destruct ((i + Z.of_nat (List.length l) <? 0)
              || (Z.of_nat (List.length l) <=? i + Z.of_nat (List.length l)))%Z
      eqn:B; [reflexivity |].
    apply orb_false_iff in B as [B _]. apply Z.ltb_ge in B. lia.
  - destruct ((i <? 0) || (Z.of_nat (List.length l) <=? i))%Z eqn:B;
      [reflexivity |].
    apply orb_false_iff in B as [_ B]. apply Z.leb_gt in B. lia.
Qed.

Lemma py_getitem_nth {A : Type} (l : list A) (i : nat) (x : A) :
  nth_error l i = Some x -> py_getitem l (Z.of_nat i) = Ok x.
Proof.
  intros H. unfold py_getitem.
  assert (L : i < List.length l) by (apply nth_error_Some; congruence).
  destruct (Z.of_nat i <? 0)%Z eqn:N; [apply Z.ltb_lt in N; lia |].
  destruct ((Z.of_nat i <? 0) || (Z.of_nat (List.length l) <=? Z.of_nat i))%Z
    eqn:B.
  - apply orb_true_iff in B as [B | B];
      [apply Z.ltb_lt in B | apply Z.leb_le in B]; lia.
  - now rewrite Nat2Z.id, H.
Qed.

Section LoopFacts.

Variable World : Type.
Variable subprocess_run : World -> list string -> World * outcome.

Local Abbreviation prompt := (prompt_user_action World subprocess_run).
Local Abbreviation run_all := (execute_all World subprocess_run).
Local Abbreviation run_one := (execute_docker_compose_command World subprocess_run).

Lemma trace_emit {A : Type} (evs : list event) (r : A * list event * World) :
  trace (emit World evs r) = (evs ++ trace r)%list.
Proof. now destruct r as [[a t] w]. Qed.

Lemma ending_emit (evs : list event) (r : ending * list event * World) :
  ending_of (emit World evs r) = ending_of r.
Proof. now destruct r as [[a t] w]. Qed.

Lemma run_one_permitted (files : list string) (f action : string) (w : World) :
  In f files -> In action actions ->
  Forall (permitted_run files) (trace (run_one f action w)).
Proof.
  intros Hf Ha. unfold execute_docker_compose_command.
  destruct (subprocess_run w _) as [w' [status | e]];
    [destruct (status =? 0)%Z |]; unfold trace; simpl;
    repeat constructor; simpl; eauto.
Qed.

Lemma run_all_permitted (files : list string) (action : string) :
  In action actions ->
  forall l w, (forall f, In f l -> In f files) ->
              Forall (permitted_run files) (trace (run_all l action w)).
Proof.
  intros Ha. induction l as [|f l IH]; intros w Hl; [constructor |].
  cbn [execute_all].
  pose proof (run_one_permitted files f action w (Hl f (or_introl eq_refl)) Ha)
    as H1.
  destruct (run_one f action w) as [[[e|] evs] w']; unfold trace in *; simpl in *.
  - exact H1.
  - specialize (IH w' (fun x Hx => Hl x (or_intror Hx))).
    destruct (run_all l action w') as [[o t] w'']. simpl in *.
    apply Forall_app. auto.
Qed.

End LoopFacts.

Section LoopInvariants.

Variable World : Type.
Variable subprocess_run : World -> list string -> World * outcome.

Local Abbreviation prompt := (prompt_user_action World subprocess_run).

Ltac step :=
  match goal with
  | |- Forall _ (trace (emit _ _ _)) =>
      rewrite trace_emit; apply Forall_app; split
  | |- Forall _ (trace (_, _, _)) => unfold trace; simpl
  | |- Forall _ [] => constructor
  | |- Forall _ (_ :: _) => constructor; [simpl; exact I |]
  end.

Lemma prompt_permitted_n (files : list string) (n : nat) :
  forall inputs w, List.length inputs <= n ->
                   Forall (permitted_run files) (trace (prompt files inputs w)).
Proof.
  induction n as [|n IH]; intros inputs w L.
  - destruct inputs; [| simpl in L; lia]. cbn [prompt_user_action].
    repeat step.
  - destruct inputs as [|line1 rest]; cbn [prompt_user_action]; repeat step.
    simpl in L.
    destruct (str_in (strip line1) ["0"; ""]); repeat step.
    destruct (String.eqb (lower (strip line1)) "a").
    + repeat step. destruct rest as [|line2 rest']; repeat step.
      destruct (str_in (lower (strip line2)) actions) eqn:A.
      * apply str_in_In in A.
        pose proof (run_all_permitted World subprocess_run files
                      (lower (strip line2)) A files w (fun f H => H)) as P.
        destruct (execute_all World subprocess_run files (lower (strip line2)) w)
          as [[[e|] evs] w'] eqn:X; unfold trace in P; simpl in P.
        -- repeat step. exact P.
        -- repeat step; [exact P |]. apply IH. simpl in L. lia.
      * repeat step. apply IH. simpl in L. lia.
    + destruct (n0 <- int (strip line1);; py_getitem files (n0 - 1)%Z)
        as [file_path | e] eqn:B.
      * assert (Hf : In file_path files).
        { destruct (int (strip line1)); simpl in B; [| discriminate].
          now apply py_getitem_In in B. }
        repeat step. destruct rest as [|line2 rest']; repeat step.
        destruct (str_in (lower (strip line2)) actions) eqn:A.
        -- apply str_in_In in A.
           pose proof (run_one_permitted World subprocess_run files file_path
                         (lower (strip line2)) w Hf A) as P.
           destruct (execute_docker_compose_command World subprocess_run
                       file_path (lower (strip line2)) w)
             as [[[e|] evs] w'] eqn:X; unfold trace in P; simpl in P.
           ++ destruct e; repeat step; try exact P.
              all: try (apply Forall_app; split; [exact P | repeat constructor]).
              all: apply IH; simpl in L; lia.
           ++ repeat step; [exact P |]. apply IH. simpl in L. lia.
        -- repeat step. apply IH. simpl in L. lia.
      * destruct e; repeat step; apply IH; lia.
Qed.

Lemma prompt_exit_n (files : list string) (n : nat) :
  forall inputs w,
    List.length inputs <= n ->
    ending_of (prompt files inputs w) = Exited ->
    exists line, In line inputs /\ str_in (strip line) ["0"; ""] = true.
Proof.
  induction n as [|n IH]; intros inputs w L.
  - destruct inputs; [| simpl in L; lia]. cbn [prompt_user_action].
    rewrite ending_emit. discriminate.
  - destruct inputs as [|line1 rest]; cbn [prompt_user_action];
      rewrite ending_emit; [discriminate |].
    simpl in L.
    assert (Hrest : forall rest' w',
               List.length rest' <= n ->
               (forall x, In x rest' -> In x (line1 :: rest)) ->
               ending_of (prompt files rest' w') = Exited ->
               exists line, In line (line1 :: rest)
                            /\ str_in (strip line) ["0"; ""] = true).
    { intros rest' w' L' Hsub H. destruct (IH rest' w' L' H) as (x & Hx & Q).
      exists x. auto. }
    destruct (str_in (strip line1) ["0"; ""]) eqn:Q.
    { intros _. exists line1. split; [now left | exact Q]. }
    destruct (String.eqb (lower (strip line1)) "a").
    + rewrite ending_emit. destruct rest as [|line2 rest']; [discriminate |].
      destruct (str_in (lower (strip line2)) actions).
      * destruct (execute_all World subprocess_run files (lower (strip line2)) w)
          as [[[e|] evs] w']; [discriminate |].
        rewrite ending_emit. apply Hrest; [simpl in L; lia |].
        intros x Hx. right. now right.
      * rewrite ending_emit. apply Hrest; [simpl in L; lia |].
        intros x Hx. right. now right.
    + destruct (n0 <- int (strip line1);; py_getitem files (n0 - 1)%Z)
        as [file_path | e].
      * rewrite ending_emit. destruct rest as [|line2 rest']; [discriminate |].
        destruct (str_in (lower (strip line2)) actions).
        -- destruct (execute_docker_compose_command World subprocess_run
                       file_path (lower (strip line2)) w)
             as [[[e|] evs] w'].
           ++ destruct e; try discriminate; rewrite ending_emit;
                (apply Hrest; [simpl in L; lia |]);
                intros x Hx; right; now right.
           ++ rewrite ending_emit. apply Hrest; [simpl in L; lia |].
              intros x Hx. right. now right.
        -- rewrite ending_emit. apply Hrest; [simpl in L; lia |].
           intros x Hx. right. now right.
      * destruct e; try discriminate; rewrite ending_emit;
          (apply Hrest; [lia |]); intros x Hx; now right.
Qed.

Lemma run_one_exits (f action : string) (w : World) :
  (forall w argv, exists status, snd (subprocess_run w argv) = Exit status) ->
  exists evs w',
    execute_docker_compose_command World subprocess_run f action w
    = (None, evs, w').
Proof.
  intros Hexit. unfold execute_docker_compose_command.
  destruct (Hexit w ["docker-compose"; "-f"; f; action]) as [status Hs].
  destruct (subprocess_run w _) as [w' o]. simpl in Hs. subst o.
  destruct (status =? 0)%Z; eauto.
Qed.

Lemma prompt_ends_n (files : list string) (n : nat) :
  (forall w argv, exists status, snd (subprocess_run w argv) = Exit status) ->
  forall inputs w,
    List.length inputs <= n ->
    ending_of (prompt files inputs w) = Exited
    \/ ending_of (prompt files inputs w) = Uncaught EOFError.
Proof.
  intros Hexit. induction n as [|n IH]; intros inputs w L.
  - destruct inputs; [| simpl in L; lia]. cbn [prompt_user_action].
    rewrite ending_emit. now right.
  - destruct inputs as [|line1 rest]; cbn [prompt_user_action];
      rewrite ending_emit; [now right |].
    simpl in L.
    destruct (str_in (strip line1) ["0"; ""]); [now left |].
    destruct (String.eqb (lower (strip line1)) "a").
    + rewrite ending_emit. destruct rest as [|line2 rest']; [now right |].
      destruct (str_in (lower (strip line2)) actions).
      * destruct (execute_all_exits World subprocess_run files
                    (lower (strip line2)) Hexit w) as (evs & w' & -> & _).
        rewrite ending_emit. apply IH. simpl in L. lia.
      * rewrite ending_emit. apply IH. simpl in L. lia.
    + destruct (n0 <- int (strip line1);; py_getitem files (n0 - 1)%Z)
        as [file_path | e] eqn:B.
      * rewrite ending_emit. destruct rest as [|line2 rest']; [now right |].
        destruct (str_in (lower (strip line2)) actions).
        -- destruct (run_one_exits file_path (lower (strip line2)) w Hexit)
             as (evs & w' & ->).
           rewrite ending_emit. apply IH. simpl in L. lia.
        -- rewrite ending_emit. apply IH. simpl in L. lia.
      * assert (He : e = ValueError \/ e = IndexError).
        { destruct (int (strip line1)) as [z|e'] eqn:I; simpl in B.
          - right. unfold py_getitem in B.
            destruct ((_ <? 0) || (_ <=? _))%Z; [congruence |].
            destruct (nth_error files _); congruence.
          - left. unfold int in I.
            destruct (match strip (strip line1) with
                      | EmptyString => _
                      | String _ _ => _
                      end); congruence. }
        destruct He as [-> | ->]; rewrite ending_emit; apply IH; lia.
Qed.

End LoopInvariants.

(** X19. Whatever the operator types and however the commands end, the only
    commands the dispatcher runs are [docker-compose -f F A] with [F] one of
    the files it was given and [A] one of start, stop, restart. *)
Theorem dispatcher_runs_only_permitted_commands
    (World : Type) (subprocess_run : World -> list string -> World * outcome)
    (files inputs : list string) (w : World) :
  Forall (permitted_run files)
         (trace (prompt_user_action World subprocess_run files inputs w)).
Proof. apply (prompt_permitted_n _ _ files (List.length inputs)). lia. Qed.

(** X20. The dispatcher returns normally only after reading a line that is,
    once trimmed, [0] or empty. *)
Theorem dispatcher_exits_only_on_a_quit_line
    (World : Type) (subprocess_run : World -> list string -> World * outcome)
    (files inputs : list string) (w : World) :
  ending_of (prompt_user_action World subprocess_run files inputs w) = Exited ->
  exists line, In line inputs /\ str_in (strip line) ["0"; ""] = true.
Proof. apply (prompt_exit_n _ _ files (List.length inputs)). lia. Qed.

Lemma dispatcher_exits_only_on_a_quit_line_witness :
  exists line,
    In line ["x"; "1"; "stop"; " 0 "; "1"]
    /\ str_in (strip line) ["0"; ""] = true.
Proof.
  apply (dispatcher_exits_only_on_a_quit_line unit always_succeeds
           ["app/docker-compose.yml"] ["x"; "1"; "stop"; " 0 "; "1"] tt).
  reflexivity.
Defined.

(** X21. When the command can always be started, the loop has two ways to
    end: the operator quits, or the input runs out and [input] raises
    [EOFError]; no invalid selection, invalid action or failed command ends
    it. *)
Theorem dispatcher_ends_by_quit_or_end_of_input
    (World : Type) (subprocess_run : World -> list string -> World * outcome)
    (files inputs : list string) (w : World) :
  (forall w argv, exists status, snd (subprocess_run w argv) = Exit status) ->
  ending_of (prompt_user_action World subprocess_run files inputs w) = Exited
  \/ ending_of (prompt_user_action World subprocess_run files inputs w)
     = Uncaught EOFError.
Proof.
  intros H. apply (prompt_ends_n _ _ files (List.length inputs) H). lia.
Qed.

Lemma dispatcher_ends_by_quit_or_end_of_input_witness :
  ending_of (prompt_user_action nat second_fails ["f1"; "f2"]
               ["9"; "a"; "stop"; "2"; "bogus"] 0) = Exited
  \/ ending_of (prompt_user_action nat second_fails ["f1"; "f2"]
                  ["9"; "a"; "stop"; "2"; "bogus"] 0) = Uncaught EOFError.
Proof.
  apply (dispatcher_ends_by_quit_or_end_of_input nat second_fails ["f1"; "f2"]
           ["9"; "a"; "stop"; "2"; "bogus"] 0).
  intros w argv. unfold second_fails. simpl.
  destruct (Nat.eqb w 1); eexists; reflexivity.
Defined.

(** ** ActionDispatcher: numbers typed at the selection prompt *)

Ltac digit_step :=
  match goal with
  | |- context [digits (String ?c ?r) ?a ?b] =>
      let v := eval vm_compute in (digit c) in
      match v with
      | Some ?k =>
          change (digits (String c r) a b) with (digits r (10 * a + k)%Z true)
      end
  end.

Lemma digits_of_uint (d : Decimal.uint) :
  forall acc,
    digits (NilEmpty.string_of_uint d) (Z.of_nat acc) true
    = Some (Z.of_nat (Nat.of_uint_acc d acc)).
Proof.
  induction d; intros acc; cbn [NilEmpty.string_of_uint Nat.of_uint_acc];
    [reflexivity | ..];
    digit_step; rewrite <- IHd; f_equal; rewrite Nat.tail_mul_spec; lia.
Qed.

Lemma rstrip_of_uint (d : Decimal.uint) :
  rstrip (NilEmpty.string_of_uint d) = NilEmpty.string_of_uint d.
Proof.
  induction d; cbn [NilEmpty.string_of_uint rstrip]; [reflexivity | ..];
    rewrite IHd; destruct (NilEmpty.string_of_uint d); reflexivity.
Qed.

Lemma strip_of_uint (d : Decimal.uint) :
  strip (NilZero.string_of_uint d) = NilZero.string_of_uint d.
Proof.
  unfold strip.
  destruct d; try reflexivity;
    cbn [NilZero.string_of_uint NilEmpty.string_of_uint];
    match goal with
    | |- rstrip (lstrip (String ?c ?r)) = _ =>
        change (lstrip (String c r)) with (String c r)
    end;
    match goal with
    | |- rstrip ?s = _ =>
        match s with
        | String ?c (NilEmpty.string_of_uint ?d') =>
            first
              [ exact (rstrip_of_uint (Decimal.D0 d'))
              | exact (rstrip_of_uint (Decimal.D1 d'))
              | exact (rstrip_of_uint (Decimal.D2 d'))
              | exact (rstrip_of_uint (Decimal.D3 d'))
              | exact (rstrip_of_uint (Decimal.D4 d'))
              | exact (rstrip_of_uint (Decimal.D5 d'))
              | exact (rstrip_of_uint (Decimal.D6 d'))
              | exact (rstrip_of_uint (Decimal.D7 d'))
              | exact (rstrip_of_uint (Decimal.D8 d'))
              | exact (rstrip_of_uint (Decimal.D9 d')) ]
        end
    end.
Qed.

Lemma int_of_uint (d : Decimal.uint) :
  int (NilZero.string_of_uint d) = Ok (Z.of_nat (Nat.of_uint d)).
Proof.
  unfold int. rewrite strip_of_uint.
  destruct d; try reflexivity;
    cbn [NilZero.string_of_uint NilEmpty.string_of_uint];
    cbv iota beta;
    digit_step;
    match goal with
    | |- context [digits _ ?z true] =>
        change z with (Z.of_nat (Z.to_nat z))
    end;
    rewrite digits_of_uint; reflexivity.
Qed.

Lemma int_str_of_nat (n : nat) : int (str_of_nat n) = Ok (Z.of_nat n).
Proof. unfold str_of_nat. now rewrite int_of_uint, Unsigned.of_to. Qed.

Lemma lower_of_uint (d : Decimal.uint) :
  String.eqb (lower (NilZero.string_of_uint d)) "a" = false.
Proof. destruct d; reflexivity. Qed.

Lemma enumerate_nth {A : Type} (l : list A) :
  forall start idx x,
    In (idx, x) (enumerate l start) ->
    start <= idx /\ nth_error l (idx - start) = Some x.
Proof.
  induction l as [|y l IH]; intros start idx x H; [destruct H |].
  destruct H as [[= <- <-] | H].
  - split; [lia |]. now rewrite Nat.sub_diag.
  - apply IH in H as [H1 H2]. split; [lia |].
    replace (idx - start) with (S (idx - S start)) by lia. exact H2.
Qed.

Lemma listed_number_resolves (files : list string) (idx : nat) (f : string) :
  In (idx, f) (enumerate files 1) ->
  str_in (strip (str_of_nat idx)) ["0"; ""] = false
  /\ String.eqb (lower (strip (str_of_nat idx))) "a" = false
  /\ (n <- int (strip (str_of_nat idx)) ;; py_getitem files (n - 1)%Z) = Ok f.
Proof.
  intros H. apply enumerate_nth in H as [H1 H2].
  unfold str_of_nat at 1 2 3. rewrite strip_of_uint.
  fold (str_of_nat idx). pose proof (int_str_of_nat idx) as I.
  split; [| split].
  - cbn [str_in].
    destruct (String.eqb_spec (str_of_nat idx) "0") as [E | _].
    { rewrite E in I. assert (J : int "0" = Ok 0%Z) by reflexivity.
      rewrite J in I. injection I as I. lia. }
    destruct (String.eqb_spec (str_of_nat idx) "") as [E | _]; [| reflexivity].
    rewrite E in I. discriminate.
  - apply lower_of_uint.
  - rewrite I. simpl.
    replace (Z.of_nat idx - 1)%Z with (Z.of_nat (idx - 1)) by lia.
    now apply py_getitem_nth.
Qed.

(** X22. The number shown in front of a file in the listing, typed back at
    the selection prompt and followed by one of the three actions, runs that
    action on that file and on no other, reports how it ended, and returns to
    the selection prompt. *)
Theorem typing_a_listed_number_runs_the_action_on_its_file
    (World : Type) (subprocess_run : World -> list string -> World * outcome)
    (files : list string) (idx : nat) (f : string)
    (line2 : string) (rest : list string) (w w' : World) (status : Z) :
  In (idx, f) (enumerate files 1) ->
  str_in (lower (strip line2)) actions = true ->
  subprocess_run w ["docker-compose"; "-f"; f; lower (strip line2)]
  = (w', Exit status) ->
  prompt_user_action World subprocess_run files
    (str_of_nat idx :: line2 :: rest) w
  = emit World
      [ShowMenu files; AskChoice; AskAction;
       Run ["docker-compose"; "-f"; f; lower (strip line2)];
       if (status =? 0)%Z then Completed f (lower (strip line2))
       else Failed f (lower (strip line2))]
      (prompt_user_action World subprocess_run files rest w').
Proof.
  intros Hin A R. destruct (listed_number_resolves files idx f Hin)
    as (H1 & H2 & H3).
  cbn [prompt_user_action]. rewrite H1, H2, H3, A.
  unfold execute_docker_compose_command. rewrite R.
  destruct (status =? 0)%Z; now rewrite !emit_emit.
Qed.

Lemma typing_a_listed_number_runs_the_action_on_its_file_witness :
  prompt_user_action nat second_fails ["f1"; "f2"; "f3"]
    (str_of_nat 3 :: " Stop" :: ["0"]) 1
  = emit nat
      [ShowMenu ["f1"; "f2"; "f3"]; AskChoice; AskAction;
       Run ["docker-compose"; "-f"; "f3"; lower (strip " Stop")];
       if (1 =? 0)%Z then Completed "f3" (lower (strip " Stop"))
       else Failed "f3" (lower (strip " Stop"))]
      (prompt_user_action nat second_fails ["f1"; "f2"; "f3"] ["0"] 2).
Proof.
  apply (typing_a_listed_number_runs_the_action_on_its_file nat second_fails
           ["f1"; "f2"; "f3"] 3 "f3" " Stop" ["0"] 1 2 1%Z).
  - simpl. right. right. left. reflexivity.
  - reflexivity.
  - reflexivity.
Defined.

(** X23. A number beyond the list on either side, or a token that [int]
    does not read, is refused: the invalid-selection message is shown, no
    action is asked for, nothing is run, and the dispatcher asks for a
    selection again. *)
Theorem selection_outside_the_list_is_refused
    (World : Type) (subprocess_run : World -> list string -> World * outcome)
    (files : list string) (line1 : string) (rest : list string) (w : World) :
  str_in (strip line1) ["0"; ""] = false ->
  String.eqb (lower (strip line1)) "a" = false ->
  (int (strip line1) = Raise ValueError
   \/ exists n, int (strip line1) = Ok n
                /\ (Z.of_nat (List.length files) < n
                    \/ n <= - Z.of_nat (List.length files))%Z) ->
  prompt_user_action World subprocess_run files (line1 :: rest) w
  = emit World [ShowMenu files; AskChoice; InvalidChoice]
      (prompt_user_action World subprocess_run files rest w).
Proof.
  intros H1 H2 H3. apply prompt_refused_choice; auto.
  destruct H3 as [-> | (n & -> & H3)]; [now left |].
  right. simpl. apply py_getitem_out_of_range. lia.
Qed.

Lemma selection_outside_the_list_is_refused_witness :
  prompt_user_action unit always_succeeds ["f1"; "f2"] ["3"; "start"; "0"] tt
  = emit unit [ShowMenu ["f1"; "f2"]; AskChoice; InvalidChoice]
      (prompt_user_action unit always_succeeds ["f1"; "f2"] ["start"; "0"] tt).
Proof.
  apply (selection_outside_the_list_is_refused unit always_succeeds
           ["f1"; "f2"] "3" ["start"; "0"] tt).
  - reflexivity.
  - reflexivity.
  - right. exists 3%Z. split; [reflexivity | simpl; lia].
Defined.

Section BulkAbort.

Variable World : Type.
Variable subprocess_run : World -> list string -> World * outcome.

Lemma execute_all_stops (action : string) (files : list string) :
  forall w e evs w',
    execute_all World subprocess_run files action w = (Some e, evs, w') ->
    exists pre f post,
      files = (pre ++ f :: post)%list
      /\ attempts evs = map (fun x => (x, action)) (pre ++ [f])
      /\ reports evs = map (fun x => (x, action)) pre.
Proof.
  induction files as [|f files IH]; intros w e evs w' H; [discriminate |].
  cbn [execute_all] in H. unfold execute_docker_compose_command in H.
  destruct (subprocess_run w ["docker-compose"; "-f"; f; action])
    as [w1 [status | e0]].
  - assert (E : exists evs2 r,
                 execute_all World subprocess_run files action w1
                 = (Some e, evs2, w')
                 /\ evs = (Run ["docker-compose"; "-f"; f; action]
                           :: r :: evs2)%list
                 /\ (r = Completed f action \/ r = Failed f action)).
    { destruct (status =? 0)%Z; cbn [emit] in H;
        destruct (execute_all World subprocess_run files action w1)
          as [[o evs2] w2]; simpl in H; injection H as <- <- <-;
        do 2 eexists; repeat split; eauto. }
    destruct E as (evs2 & r & X & -> & Hr).
    destruct (IH _ _ _ _ X) as (pre & g & post & -> & Ha & Hp).
    exists (f :: pre), g, post. repeat split.
    + destruct Hr as [-> | ->]; simpl; now rewrite Ha.
    + destruct Hr as [-> | ->]; simpl; now rewrite Hp.
  - injection H as <- <- <-. exists [], f, files. repeat split.
Qed.

End BulkAbort.

(** X24. In bulk mode a command that cannot be started at all (an exception
    other than a non-zero exit) ends the dispatcher with that exception: the
    files before it were run and reported in order, it was attempted, the
    files after it are not, and no further input is read. *)
Theorem bulk_stops_at_a_command_that_cannot_start
    (World : Type) (subprocess_run : World -> list string -> World * outcome)
    (files : list string) (line1 line2 : string) (rest : list string)
    (w w' : World) (e : exn) (evs : list event) :
  str_in (strip line1) ["0"; ""] = false ->
  String.eqb (lower (strip line1)) "a" = true ->
  str_in (lower (strip line2)) actions = true ->
  execute_all World subprocess_run files (lower (strip line2)) w
  = (Some e, evs, w') ->
  prompt_user_action World subprocess_run files (line1 :: line2 :: rest) w
  = (Uncaught e, ([ShowMenu files; AskChoice; AskBulkAction] ++ evs)%list, w')
  /\ exists pre f post,
       files = (pre ++ f :: post)%list
       /\ attempts evs = map (fun x => (x, lower (strip line2))) (pre ++ [f])
       /\ reports evs = map (fun x => (x, lower (strip line2))) pre.
Proof.
  intros H1 H2 H3 X. split;
    [| exact (execute_all_stops World subprocess_run _ _ w e evs w' X)].
  cbn [prompt_user_action]. rewrite H1, H2, H3, X. reflexivity.
Qed.

Lemma bulk_stops_at_a_command_that_cannot_start_witness :
  prompt_user_action nat second_cannot_start ["f1"; "f2"; "f3"]
    ["a"; "start"; "0"] 0
  = (Uncaught OSError,
     ([ShowMenu ["f1"; "f2"; "f3"]; AskChoice; AskBulkAction]
      ++ [Run ["docker-compose"; "-f"; "f1"; "start"]; Completed "f1" "start";
          Run ["docker-compose"; "-f"; "f2"; "start"]])%list,
     2)
  /\ exists pre f post,
       ["f1"; "f2"; "f3"] = (pre ++ f :: post)%list
       /\ attempts [Run ["docker-compose"; "-f"; "f1"; "start"];
                    Completed "f1" "start";
                    Run ["docker-compose"; "-f"; "f2"; "start"]]
          = map (fun x => (x, lower (strip "start"))) (pre ++ [f])
       /\ reports [Run ["docker-compose"; "-f"; "f1"; "start"];
                   Completed "f1" "start";
                   Run ["docker-compose"; "-f"; "f2"; "start"]]
          = map (fun x => (x, lower (strip "start"))) pre.
Proof.
  apply (bulk_stops_at_a_command_that_cannot_start nat second_cannot_start
           ["f1"; "f2"; "f3"] "a" "start" ["0"] 0 2 OSError).
  - reflexivity.
  - reflexivity.
  - reflexivity.
  - reflexivity.
Defined.

(** X25. Scan and dispatcher together: whatever the operator types, the only
    commands [list_ports] runs are [docker-compose -f F A] with [F] one of the
    paths the scan returned and [A] one of start, stop, restart. *)
Theorem list_ports_runs_commands_on_found_files_only
    (re_search : string -> string -> result bool)
    (load : string -> result pyval) (docker : result (list container))
    (World : Type) (subprocess_run : World -> list string -> World * outcome)
    (root_path : string) (max_depth : Z)
    (exclude_patterns : option (list string)) (fs : dir)
    (inputs : list string) (w : World) (files : list string) :
  find_docker_compose_files re_search root_path max_depth exclude_patterns fs
  = Ok files ->
  Forall (permitted_run files)
         (trace (list_ports re_search load docker World subprocess_run
                   root_path max_depth exclude_patterns fs inputs w)).
Proof.
  intros H. unfold list_ports. rewrite H.
  destruct files as [|f files]; [constructor |].
  destruct (get_ports_from_docker_compose load (f :: files)) as [cp diags].
  destruct (get_ports_from_running_containers docker); [| constructor].
  pose proof (prompt_permitted_n World subprocess_run (f :: files)
                (List.length inputs) inputs w (le_n _)) as P.
  destruct (prompt_user_action World subprocess_run (f :: files) inputs w)
    as [[[|e] t] w']; exact P.
Qed.

Lemma list_ports_runs_commands_on_found_files_only_witness :
  Forall (permitted_run ["./app/docker-compose.yml"])
         (trace (list_ports literal_search sample_load (Ok sample_containers)
                   unit always_succeeds "." 2 (Some ["_bk"]) sample_tree
                   ["1"; "restart"; "a"; "stop"; "0"] tt)).
Proof.
  apply (list_ports_runs_commands_on_found_files_only literal_search
           sample_load (Ok sample_containers) unit always_succeeds "." 2
           (Some ["_bk"]) sample_tree ["1"; "restart"; "a"; "stop"; "0"] tt
           ["./app/docker-compose.yml"]).
  reflexivity.
Defined.
